(** * Ensemble builder of auto-pytorch: candidate selection, disk reclamation,
      memory degradation and refit fingerprinting.

    The development embeds [src/autoPyTorch/ensemble/ensemble_builder.py]
    (class [EnsembleBuilder]) as pure functions over an explicit builder state
    and an explicit description of the outside world (file system, metric and
    ensemble-selection library), and proves the properties stated about it.

    Modelling conventions.
    - Python floats are exact rationals [Q]; a loss is a rational or [+inf]
      ([np.inf]).  NaN losses are outside the model.  The intermediate
      arithmetic of the performance-range cutoff uses an extended type with
      both infinities and NaN, because [inf - inf] occurs there.
    - [self.read_losses] is an insertion-ordered dict: an association list
      with in-place update.  [self.read_preds] is a [gmap], the set
      [_has_been_candidate] a [gset].
    - Python exceptions are the [Raise] branch of [result]. *)

From Stdlib Require Import ZArith QArith Qround String Ascii List Lia Permutation Sorted.
From Stdlib Require Import DecimalString.
From stdpp Require Import gmap strings list.
From Stdlib Require Import Lqa.

Open Scope Z_scope.

(** ** Python values *)

Module Py.

(** Exceptions that the embedded code can raise. *)
Inductive exn :=
| ValueError | IndexError | KeyError | UnboundLocalError | AttributeError
| MemoryError | NotImplementedError | OSError.

Inductive result (A : Type) :=
| Ok (a : A)
| Raise (e : exn).
Arguments Ok {A} a.
Arguments Raise {A} e.

Definition bind {A B} (m : result A) (k : A → result B) : result B :=
  match m with Ok a => k a | Raise e => Raise e end.

Definition of_option {A} (e : exn) (o : option A) : result A :=
  match o with Some a => Ok a | None => Raise e end.

Definition is_ok {A} (m : result A) : bool :=
  match m with Ok _ => true | Raise _ => false end.

(** A number that is either an [int] or a [float]
    ([isinstance(x, numbers.Integral)] tells them apart).  [PyFloat q] is the
    float of value [q]; when no float has this value, it is the float
    nearest to [q], as for a literal. *)
Inductive number :=
| PyInt (n : Z)
| PyFloat (q : Q).

(** [int(q)]: truncation towards zero. *)
Definition int_of_Q (q : Q) : Z := Z.quot (Qnum q) (Zpos (Qden q)).

Definition Qltb (a b : Q) : bool :=
  match Qcompare a b with Lt => true | _ => false end.

(** [2^e] for an integer [e] of either sign. *)
Definition Qpow2 (e : Z) : Q :=
  if 0 <=? e then inject_Z (2 ^ e) else 1 # Z.to_pos (2 ^ (- e)).

(** The integer nearest to a rational, the even one on a tie. *)
Definition nearest_even (q : Q) : Z :=
  let f := Qfloor q in
  let r := (q - inject_Z f)%Q in
  if Qltb r (1 # 2) then f
  else if Qltb (1 # 2) r then f + 1
  else if Z.even f then f else f + 1.

(** The float (IEEE 754 binary64) nearest to a positive rational, the one
    with the even mantissa on a tie: a mantissa of 53 bits above
    [2^-1022], the fixed spacing [2^-1074] below.  [l] is the integer part
    of the binary logarithm. *)
Definition float_of_positive (a : Q) : Q :=
  let l0 := Z.log2 (Qnum a) - Z.log2 (Zpos (Qden a)) in
  let l := if Qle_bool (Qpow2 l0) a then l0 else l0 - 1 in
  let e := Z.max (l - 52) (-1074) in
  (inject_Z (nearest_even (a / Qpow2 e)) * Qpow2 e)%Q.

(** The value of the float that the exact value [x] is rounded to: by a
    float literal, by [float(n)], and by every operation on floats.  Values
    of [2^1024] and above, which overflow, are outside the model. *)
Definition float_of_Q (x : Q) : Q :=
  let x := Qred x in
  match Qnum x with
  | 0 => 0%Q
  | Zpos _ => float_of_positive x
  | Zneg _ => (- float_of_positive (- x))%Q
  end.

(** [a * b] on floats. *)
Definition float_mul (a b : Q) : Q := float_of_Q (float_of_Q a * float_of_Q b).

(** [l[i]] with Python's negative indices. *)
Definition index {A} (l : list A) (i : Z) : result A :=
  let n := Z.of_nat (length l) in
  if (0 <=? i) && (i <? n) then of_option IndexError (l !! Z.to_nat i)
  else if (i <? 0) && (0 <=? n + i) then of_option IndexError (l !! Z.to_nat (n + i))
  else Raise IndexError.

(** The bounds of a slice, [l[:n]] and [l[n:]], with a negative [n] counted
    from the end. *)
Definition slice_bound {A} (l : list A) (n : Z) : nat :=
  if n <? 0 then Z.to_nat (Z.max 0 (Z.of_nat (length l) + n)) else Z.to_nat n.

Definition slice_to {A} (l : list A) (n : Z) : list A := take (slice_bound l n) l.
Definition slice_from {A} (l : list A) (n : Z) : list A := drop (slice_bound l n) l.

(** [sorted]: a stable sort.  [lt] is the strict order on keys; an element
    is put in front of the first element that is not smaller than it. *)
Fixpoint insert_by {A} (lt : A → A → bool) (x : A) (l : list A) : list A :=
  match l with
  | [] => [x]
  | y :: l' => if lt y x then y :: insert_by lt x l' else x :: y :: l'
  end.

Definition sorted {A} (lt : A → A → bool) (l : list A) : list A :=
  foldr (insert_by lt) [] l.

(** [str.endswith]. *)
Definition endswith (s suffix : string) : bool :=
  let n := String.length s in
  let k := String.length suffix in
  (k <=? n)%nat && String.eqb (String.substring (n - k) k s) suffix.

(** [str(n)] for a non-negative integer. *)
Definition str_of_N (n : N) : string := NilZero.string_of_uint (N.to_uint n).

End Py.

Import Py.

#[global] Instance result_ret : MRet result := @Ok.
#[global] Instance result_bind : MBind result := fun A B k m => Py.bind m k.

(** ** Losses and the arithmetic of the cutoff *)

(** [ens_loss]: a float, [np.inf] when unknown or invalid. *)
Inductive loss :=
| Fin (q : Q)
| Inf.

Definition loss_ltb (a b : loss) : bool :=
  match a, b with
  | Fin x, Fin y => Qltb x y
  | Fin _, Inf => true
  | Inf, _ => false
  end.

Definition loss_eqb (a b : loss) : bool :=
  match a, b with
  | Fin x, Fin y => Qeq_bool x y
  | Inf, Inf => true
  | _, _ => false
  end.

(** Floats with both infinities and NaN, without rounding. *)
Inductive xfloat :=
| XFin (q : Q)
| XPInf
| XNInf
| XNaN.

Definition xfloat_of_loss (l : loss) : xfloat :=
  match l with Fin q => XFin q | Inf => XPInf end.

Definition xneg (a : xfloat) : xfloat :=
  match a with
  | XFin q => XFin (- q)
  | XPInf => XNInf
  | XNInf => XPInf
  | XNaN => XNaN
  end.

Definition xadd (a b : xfloat) : xfloat :=
  match a, b with
  | XNaN, _ | _, XNaN => XNaN
  | XFin x, XFin y => XFin (x + y)
  | XPInf, XNInf | XNInf, XPInf => XNaN
  | XPInf, _ | _, XPInf => XPInf
  | XNInf, _ | _, XNInf => XNInf
  end.

Definition xsub (a b : xfloat) : xfloat := xadd a (xneg b).

(** Product with a finite factor. *)
Definition xscale (a : xfloat) (t : Q) : xfloat :=
  match a with
  | XFin x => XFin (x * t)
  | XNaN => XNaN
  | XPInf => if Qltb 0 t then XPInf else if Qltb t 0 then XNInf else XNaN
  | XNInf => if Qltb 0 t then XNInf else if Qltb t 0 then XPInf else XNaN
  end.

(** [a > b]; any comparison with NaN is false. *)
Definition xgtb (a b : xfloat) : bool :=
  match a, b with
  | XNaN, _ | _, XNaN => false
  | XFin x, XFin y => Qltb y x
  | XPInf, XPInf => false
  | XPInf, _ => true
  | XNInf, _ => false
  | XFin _, XNInf => true
  | XFin _, XPInf => false
  end.

Definition xeqb (a b : xfloat) : bool :=
  match a, b with
  | XFin x, XFin y => Qeq_bool x y
  | XPInf, XPInf | XNInf, XNInf => true
  | _, _ => false
  end.

Definition xgeb (a b : xfloat) : bool := xgtb a b || xeqb a b.

(** ** The caches *)

(** The lazy-loading state of a record: 0 not loaded, 1 loaded and in
    memory, 2 loaded but dropped again, 3 deleted from disk. *)
Inductive load_state := NotLoaded | InMemory | Dropped | Deleted.

Definition load_state_eqb (a b : load_state) : bool :=
  match a, b with
  | NotLoaded, NotLoaded | InMemory, InMemory
  | Dropped, Dropped | Deleted, Deleted => true
  | _, _ => false
  end.

(** One entry of [self.read_losses]. *)
Record loss_record := {
  ens_loss : loss;
  mtime_ens : Q;
  mtime_test : Q;
  rec_seed : Z;
  num_run : Z;
  budget : Q;
  disc_space_cost_mb : option Q;
  loaded : load_state
}.

Definition set_ens_loss (l : loss) (r : loss_record) : loss_record :=
  {| ens_loss := l; mtime_ens := mtime_ens r; mtime_test := mtime_test r;
     rec_seed := rec_seed r; num_run := num_run r; budget := budget r;
     disc_space_cost_mb := disc_space_cost_mb r; loaded := loaded r |}.

Definition set_mtime_ens (t : Q) (r : loss_record) : loss_record :=
  {| ens_loss := ens_loss r; mtime_ens := t; mtime_test := mtime_test r;
     rec_seed := rec_seed r; num_run := num_run r; budget := budget r;
     disc_space_cost_mb := disc_space_cost_mb r; loaded := loaded r |}.

Definition set_disc_space_cost_mb (c : option Q) (r : loss_record) : loss_record :=
  {| ens_loss := ens_loss r; mtime_ens := mtime_ens r; mtime_test := mtime_test r;
     rec_seed := rec_seed r; num_run := num_run r; budget := budget r;
     disc_space_cost_mb := c; loaded := loaded r |}.

Definition set_loaded (s : load_state) (r : loss_record) : loss_record :=
  {| ens_loss := ens_loss r; mtime_ens := mtime_ens r; mtime_test := mtime_test r;
     rec_seed := rec_seed r; num_run := num_run r; budget := budget r;
     disc_space_cost_mb := disc_space_cost_mb r; loaded := s |}.

(** A decoded prediction array, as the bytes of [arr.data.tobytes()]. *)
Definition ndarray := list Byte.byte.

(** One entry of [self.read_preds]: the slots [Y_ENSEMBLE] and [Y_TEST]. *)
Record pred_entry := {
  y_ensemble : option ndarray;
  y_test : option ndarray
}.

(** Insertion-ordered dict with string keys. *)
Module Dict.

Definition t (V : Type) := list (string * V).

Fixpoint get {V} (d : t V) (k : string) : option V :=
  match d with
  | [] => None
  | (k', v) :: d' => if String.eqb k' k then Some v else get d' k
  end.

(** [d[k] = f(d[k])] for a key that is present; nothing otherwise. *)
Fixpoint alter {V} (f : V → V) (k : string) (d : t V) : t V :=
  match d with
  | [] => []
  | (k', v) :: d' =>
      if String.eqb k' k then (k', f v) :: d' else (k', v) :: alter f k d'
  end.

(** [d[k] = v]: in place when the key is present, at the end otherwise. *)
Fixpoint set {V} (k : string) (v : V) (d : t V) : t V :=
  match d with
  | [] => [(k, v)]
  | (k', v') :: d' =>
      if String.eqb k' k then (k', v) :: d' else (k', v') :: set k v d'
  end.

Definition keys {V} (d : t V) : list string := d.*1.

End Dict.

(** ** File names *)

(** [MODEL_FN_RE]: an underscore, a group of digits, an underscore, a group
    of digits, an underscore, a group of one or more digits, dots and digits,
    and then [.npy]. *)

Definition is_digit (c : ascii) : bool :=
  let n := nat_of_ascii c in (48 <=? n)%nat && (n <=? 57)%nat.

Definition is_dot (c : ascii) : bool := Ascii.eqb c ".".

(** The longest prefix made of characters that pass the test, and the rest:
    what a greedy star takes first. *)
Fixpoint span (p : ascii → bool) (s : string) : string * string :=
  match s with
  | EmptyString => (EmptyString, EmptyString)
  | String c s' =>
      if p c then let '(a, r) := span p s' in (String c a, r)
      else (EmptyString, s)
  end.

(** A match of the pattern at the start of [s]: the three groups.  The
    digits of a group are followed by a character that is no digit, so each
    star takes its longest run; only the dots may have to give one back, to
    the [\.] of [\.npy]. *)
Definition match_model_fn (s : string) : option (string * string * string) :=
  match s with
  | String "_" s1 =>
      let '(g1, r1) := span is_digit s1 in
      match r1 with
      | String "_" s2 =>
          let '(g2, r2) := span is_digit s2 in
          match r2 with
          | String "_" s3 =>
              let '(a, r3) := span is_digit s3 in
              match a with
              | EmptyString => None
              | _ =>
                  let '(dots, r4) := span is_dot r3 in
                  let '(c, r5) := span is_digit r4 in
                  if String.prefix ".npy" r5 then Some (g1, g2, a +:+ dots +:+ c)
                  else
                    match dots, c with
                    | String _ dots', EmptyString =>
                        if String.prefix "npy" r4 then Some (g1, g2, a +:+ dots') else None
                    | _, _ => None
                    end
              end
          | _ => None
          end
      | _ => None
      end
  | _ => None
  end.

(** [model_fn_re.search]: the leftmost match. *)
Fixpoint model_fn_re_search (s : string) : option (string * string * string) :=
  match match_model_fn s with
  | Some g => Some g
  | None =>
      match s with
      | EmptyString => None
      | String _ s' => model_fn_re_search s'
      end
  end.

Definition digit_value (c : ascii) : Z := Z.of_nat (nat_of_ascii c) - 48.

Fixpoint digits_value (acc : Z) (s : string) : Z :=
  match s with
  | EmptyString => acc
  | String c s' => digits_value (10 * acc + digit_value c) s'
  end.

(** [int(s)] of a string of digits; the empty string raises [ValueError]. *)
Definition int_of_digits (s : string) : option Z :=
  match s with
  | EmptyString => None
  | _ => Some (digits_value 0 s)
  end.

(** [float(s)] of digits, dots and digits: with at most one dot it is a
    number, in lowest terms. *)
Definition float_of_group (s : string) : option Q :=
  let '(a, r) := span is_digit s in
  let '(dots, c) := span is_dot r in
  match dots with
  | EmptyString => Some (inject_Z (digits_value 0 a))
  | String _ EmptyString =>
      Some (Qred (inject_Z (digits_value 0 a)
                  + inject_Z (digits_value 0 c)
                    / inject_Z (10 ^ Z.of_nat (String.length c))))%Q
  | _ => None
  end.

(** The seed, num_run and budget in a file name; [None]: no match, or a
    group that is no number (both raise [ValueError]). *)
Definition parse_fn (path : string) : option (Z * Z * Q) :=
  '(g1, g2, g3) ← model_fn_re_search path;
  _seed ← int_of_digits g1;
  _num_run ← int_of_digits g2;
  _budget ← float_of_group g3;
  Some (_seed, _num_run, _budget).

(** ** The outside world and the builder *)

(** Modelled from the spec: the class [EnsembleSelection] is not part of the
    sources at hand.  An ensemble is the ordered selection of model
    identifiers [(seed, num_run, budget)] with their integer weights and the
    fitted validation loss. *)
Record ensemble := {
  identifiers : list (Z * Z * Q);
  weights : list Z;
  validation_performance : loss
}.

(** The outcome of fitting: an ensemble, or the exception raised. *)
Inductive fit_outcome :=
| Fitted (e : ensemble)
| FitRaises (e : exn).

(** What one call of the builder observes of the file system and of the
    libraries it calls.  [None] stands for a raised exception. *)
Record world := {
  (** [backend.load_targets_ensemble()]; [None]: [FileNotFoundError] *)
  load_targets_ensemble : option ndarray;
  (** [glob.glob(pred_path)] *)
  glob_files : list string;
  (** [os.path.getmtime] *)
  getmtime : string → Q;
  (** [_read_np_fn] *)
  read_np_fn : string → option ndarray;
  (** [calculate_loss(...)[opt_metric]] of a target and a prediction *)
  calculate_loss : ndarray → ndarray → option loss;
  (** [get_disk_consumption] *)
  get_disk_consumption : string → option Q;
  (** [os.rename] followed by [shutil.rmtree] of the run directory
      [backend.get_numrun_directory(seed, num_run, budget)]: [true] when
      both succeed *)
  remove_numrun_dir : Z → Z → Q → bool;
  (** [EnsembleSelection(...).fit(predictions, targets, identifiers)] *)
  ensemble_fit : list ndarray → option ndarray → list (Z * Z * Q) → fit_outcome
}.

(** The attributes of [EnsembleBuilder] that the embedded methods use. *)
Record builder := {
  seed : Z;
  ensemble_nbest : number;
  max_models_on_disc : option number;
  max_resident_models : option Z;
  performance_range_threshold : Q;
  read_at_most : Z;
  unit_test : bool;
  metrics : list string;
  opt_metric : string;
  last_hash : option string;
  y_true_ensemble : option ndarray;
  y_ens_files : list string;
  read_losses : Dict.t loss_record;
  read_preds : gmap string pred_entry;
  has_been_candidate : gset string;
  validation_performance_ : loss
}.

Definition set_read_losses (d : Dict.t loss_record) (b : builder) : builder :=
  {| seed := seed b; ensemble_nbest := ensemble_nbest b;
     max_models_on_disc := max_models_on_disc b;
     max_resident_models := max_resident_models b;
     performance_range_threshold := performance_range_threshold b;
     read_at_most := read_at_most b; unit_test := unit_test b;
     metrics := metrics b; opt_metric := opt_metric b;
     last_hash := last_hash b; y_true_ensemble := y_true_ensemble b;
     y_ens_files := y_ens_files b; read_losses := d;
     read_preds := read_preds b; has_been_candidate := has_been_candidate b;
     validation_performance_ := validation_performance_ b |}.

Definition set_read_preds (m : gmap string pred_entry) (b : builder) : builder :=
  {| seed := seed b; ensemble_nbest := ensemble_nbest b;
     max_models_on_disc := max_models_on_disc b;
     max_resident_models := max_resident_models b;
     performance_range_threshold := performance_range_threshold b;
     read_at_most := read_at_most b; unit_test := unit_test b;
     metrics := metrics b; opt_metric := opt_metric b;
     last_hash := last_hash b; y_true_ensemble := y_true_ensemble b;
     y_ens_files := y_ens_files b; read_losses := read_losses b;
     read_preds := m; has_been_candidate := has_been_candidate b;
     validation_performance_ := validation_performance_ b |}.

Definition set_max_resident_models (m : option Z) (b : builder) : builder :=
  {| seed := seed b; ensemble_nbest := ensemble_nbest b;
     max_models_on_disc := max_models_on_disc b;
     max_resident_models := m;
     performance_range_threshold := performance_range_threshold b;
     read_at_most := read_at_most b; unit_test := unit_test b;
     metrics := metrics b; opt_metric := opt_metric b;
     last_hash := last_hash b; y_true_ensemble := y_true_ensemble b;
     y_ens_files := y_ens_files b; read_losses := read_losses b;
     read_preds := read_preds b; has_been_candidate := has_been_candidate b;
     validation_performance_ := validation_performance_ b |}.

Definition set_ensemble_nbest (n : number) (b : builder) : builder :=
  {| seed := seed b; ensemble_nbest := n;
     max_models_on_disc := max_models_on_disc b;
     max_resident_models := max_resident_models b;
     performance_range_threshold := performance_range_threshold b;
     read_at_most := read_at_most b; unit_test := unit_test b;
     metrics := metrics b; opt_metric := opt_metric b;
     last_hash := last_hash b; y_true_ensemble := y_true_ensemble b;
     y_ens_files := y_ens_files b; read_losses := read_losses b;
     read_preds := read_preds b; has_been_candidate := has_been_candidate b;
     validation_performance_ := validation_performance_ b |}.

Definition set_read_at_most (n : Z) (b : builder) : builder :=
  {| seed := seed b; ensemble_nbest := ensemble_nbest b;
     max_models_on_disc := max_models_on_disc b;
     max_resident_models := max_resident_models b;
     performance_range_threshold := performance_range_threshold b;
     read_at_most := n; unit_test := unit_test b;
     metrics := metrics b; opt_metric := opt_metric b;
     last_hash := last_hash b; y_true_ensemble := y_true_ensemble b;
     y_ens_files := y_ens_files b; read_losses := read_losses b;
     read_preds := read_preds b; has_been_candidate := has_been_candidate b;
     validation_performance_ := validation_performance_ b |}.

Definition set_last_hash (h : option string) (b : builder) : builder :=
  {| seed := seed b; ensemble_nbest := ensemble_nbest b;
     max_models_on_disc := max_models_on_disc b;
     max_resident_models := max_resident_models b;
     performance_range_threshold := performance_range_threshold b;
     read_at_most := read_at_most b; unit_test := unit_test b;
     metrics := metrics b; opt_metric := opt_metric b;
     last_hash := h; y_true_ensemble := y_true_ensemble b;
     y_ens_files := y_ens_files b; read_losses := read_losses b;
     read_preds := read_preds b; has_been_candidate := has_been_candidate b;
     validation_performance_ := validation_performance_ b |}.

Definition set_validation_performance_ (l : loss) (b : builder) : builder :=
  {| seed := seed b; ensemble_nbest := ensemble_nbest b;
     max_models_on_disc := max_models_on_disc b;
     max_resident_models := max_resident_models b;
     performance_range_threshold := performance_range_threshold b;
     read_at_most := read_at_most b; unit_test := unit_test b;
     metrics := metrics b; opt_metric := opt_metric b;
     last_hash := last_hash b; y_true_ensemble := y_true_ensemble b;
     y_ens_files := y_ens_files b; read_losses := read_losses b;
     read_preds := read_preds b; has_been_candidate := has_been_candidate b;
     validation_performance_ := l |}.

Definition set_y_true_ensemble (y : option ndarray) (b : builder) : builder :=
  {| seed := seed b; ensemble_nbest := ensemble_nbest b;
     max_models_on_disc := max_models_on_disc b;
     max_resident_models := max_resident_models b;
     performance_range_threshold := performance_range_threshold b;
     read_at_most := read_at_most b; unit_test := unit_test b;
     metrics := metrics b; opt_metric := opt_metric b;
     last_hash := last_hash b; y_true_ensemble := y;
     y_ens_files := y_ens_files b; read_losses := read_losses b;
     read_preds := read_preds b; has_been_candidate := has_been_candidate b;
     validation_performance_ := validation_performance_ b |}.

Definition set_y_ens_files (l : list string) (b : builder) : builder :=
  {| seed := seed b; ensemble_nbest := ensemble_nbest b;
     max_models_on_disc := max_models_on_disc b;
     max_resident_models := max_resident_models b;
     performance_range_threshold := performance_range_threshold b;
     read_at_most := read_at_most b; unit_test := unit_test b;
     metrics := metrics b; opt_metric := opt_metric b;
     last_hash := last_hash b; y_true_ensemble := y_true_ensemble b;
     y_ens_files := l; read_losses := read_losses b;
     read_preds := read_preds b; has_been_candidate := has_been_candidate b;
     validation_performance_ := validation_performance_ b |}.

(** ** [_get_list_of_sorted_preds] *)

(** A sorted entry: [(k, v["ens_loss"], v["num_run"])]. *)
Definition pred_key : Type := string * loss * Z.

Definition pk_path (x : pred_key) : string := x.1.1.
Definition pk_loss (x : pred_key) : loss := x.1.2.
Definition pk_run (x : pred_key) : Z := x.2.

(** The order of the sort key [(x[1], x[2])]: tuples compare
    lexicographically. *)
Definition pred_key_ltb (x y : pred_key) : bool :=
  loss_ltb (pk_loss x) (pk_loss y)
  || (loss_eqb (pk_loss x) (pk_loss y) && (pk_run x <? pk_run y)).

Definition pred_keys_of (d : Dict.t loss_record) : list pred_key :=
  map (fun kv => (kv.1, ens_loss kv.2, num_run kv.2)) d.

Definition _get_list_of_sorted_preds (b : builder) : list pred_key :=
  Py.sorted pred_key_ltb (pred_keys_of (read_losses b)).

(** ** [get_n_best_preds] *)

(** Removal of everything that is at most as good as the dummy model
    (run 1).  Returns the local [dummy_loss], bound only when a dummy record
    exists, and the new [sorted_keys]. *)
Definition dummy_filter (b : builder) (sorted_keys : list pred_key)
  : option pred_key * list pred_key :=
  let dummy_losses := List.filter (fun x => pk_run x =? 1) sorted_keys in
  match dummy_losses with
  | [] => (None, sorted_keys)
  | dummy_loss :: _ =>
      let sorted_keys :=
        List.filter (fun x => loss_ltb (pk_loss x) (pk_loss dummy_loss)) sorted_keys in
      (* remove Dummy Classifier *)
      let sorted_keys := List.filter (fun x => pk_run x >? 1) sorted_keys in
      match sorted_keys with
      | [] =>
          (Some dummy_loss,
           pred_keys_of
             (List.filter (fun kv => (rec_seed kv.2 =? seed b) && (num_run kv.2 =? 1))
                          (read_losses b)))
      | _ => (Some dummy_loss, sorted_keys)
      end
  end.

(** The number of models to keep, from [ensemble_nbest] and the number of
    sorted keys. *)
Definition keep_nbest_of (nbest : number) (len : Z) : Z :=
  match nbest with
  | PyFloat q =>
      (* Transform to number of models to keep. Keep at least one *)
      Z.max 1 (Z.min len (int_of_Q (float_mul (inject_Z len) q)))
  | PyInt n =>
      (* Keep only at most ensemble_nbest *)
      Z.min n len
  end.

(** The order of the lists [[ens_loss, disc_space_cost_mb]]. *)
Definition consumption_ltb (x y : loss * Q) : bool :=
  loss_ltb x.1 y.1 || (loss_eqb x.1 y.1 && Qltb x.2 y.2).

Definition consumption_of (d : Dict.t loss_record) : list (loss * Q) :=
  omap (fun kv => c ← disc_space_cost_mb kv.2; Some (ens_loss kv.2, c)) d.

Definition Qsum (l : list Q) : Q := foldr Qplus 0%Q l.

(** [max] of a sequence; raises [ValueError] on an empty one. *)
Definition Qmax_list (l : list Q) : result Q :=
  match l with
  | [] => Raise ValueError
  | x :: l' => Ok (foldl (fun m y => if Qltb m y then y else m) x l')
  end.

(** [np.cumsum]. *)
Fixpoint cumsum_from (acc : Q) (l : list Q) : list Q :=
  match l with
  | [] => []
  | x :: l' => (acc + x)%Q :: cumsum_from (acc + x)%Q l'
  end.

Definition cumsum (l : list Q) : list Q := cumsum_from 0%Q l.

(** [np.argmax] of a boolean array: the first [True], 0 when there is none. *)
Fixpoint argmax_from (i : Z) (l : list bool) : option Z :=
  match l with
  | [] => None
  | true :: _ => Some i
  | false :: l' => argmax_from (i + 1) l'
  end.

Definition argmax (l : list bool) : Z := default 0 (argmax_from 0 l).

(** [np.cumsum([c[1] for c in sorted(consumption)]) + max_consumption] *)
Definition sorted_cum_consumption (consumption : list (loss * Q)) (max_consumption : Q)
  : list Q :=
  map (fun c => (c + max_consumption)%Q)
      (cumsum (Py.sorted consumption_ltb consumption).*2).

(** The new value of [self.max_resident_models]. *)
Definition resident_bound (b : builder) : result (option Z) :=
  match max_models_on_disc b with
  | None => Ok (max_resident_models b)
  | Some (PyFloat mb) =>
      let consumption := consumption_of (read_losses b) in
      max_consumption ← Qmax_list consumption.*2;
      if Qltb mb (Qsum consumption.*2 + max_consumption)%Q then
        (* just leave the best -- smaller is better! *)
        let max_models :=
          argmax (map (fun c => Qltb mb c)
                      (sorted_cum_consumption consumption max_consumption)) in
        (* Make sure that at least 1 model survives *)
        Ok (Some (Z.max 1 max_models))
      else Ok None
  | Some (PyInt n) => Ok (Some n)
  end.

Definition clamp_keep_nbest (max_resident : option Z) (keep_nbest : Z) : Z :=
  match max_resident with
  | Some m => if keep_nbest >? m then m else keep_nbest
  | None => keep_nbest
  end.

(** The loop [for i in range(0, keep_nbest)] of the performance-range step,
    at index [i] with [n] iterations left. *)
Fixpoint prune_scan (sorted_keys : list pred_key) (worst_loss : xfloat)
    (keep_nbest : Z) (i : Z) (n : nat) : result Z :=
  match n with
  | O => Ok keep_nbest
  | S n' =>
      x ← Py.index sorted_keys i;
      if xgeb (xfloat_of_loss (pk_loss x)) worst_loss then Ok (Z.max 1 i)
      else prune_scan sorted_keys worst_loss keep_nbest (i + 1) n'
  end.

(** [worst_loss -= (worst_loss - best_loss) * threshold]. *)
Definition range_cutoff (worst_loss best_loss : loss) (threshold : Q) : xfloat :=
  let w := xfloat_of_loss worst_loss in
  xsub w (xscale (xsub w (xfloat_of_loss best_loss)) threshold).

(** The performance-range step: consider [performance_range_threshold]. *)
Definition performance_range_prune (threshold : Q) (dummy_loss : option pred_key)
    (sorted_keys : list pred_key) (keep_nbest : Z) : result Z :=
  if Qltb 0 threshold then
    best ← Py.index sorted_keys 0;
    dummy ← Py.of_option UnboundLocalError dummy_loss;
    let worst_loss := range_cutoff (pk_loss dummy) (pk_loss best) threshold in
    last ← Py.index sorted_keys (keep_nbest - 1);
    if xgtb (xfloat_of_loss (pk_loss last)) worst_loss then
      prune_scan sorted_keys worst_loss keep_nbest 0 (Z.to_nat keep_nbest)
    else Ok keep_nbest
  else Ok keep_nbest.

(** Remove loaded predictions for non-winning models. *)
Definition drop_pred (b : builder) (k : string) : result builder :=
  let b :=
    match read_preds b !! k with
    | Some _ =>
        set_read_preds (<[k := {| y_ensemble := None; y_test := None |}]> (read_preds b)) b
    | None => b
    end in
  r ← Py.of_option KeyError (Dict.get (read_losses b) k);
  if load_state_eqb (loaded r) InMemory
  then Ok (set_read_losses (Dict.alter (set_loaded Dropped) k (read_losses b)) b)
  else Ok b.

(** Load the predictions for the winning. *)
Definition load_pred (w : world) (b : builder) (k : string) : result builder :=
  let missing :=
    match read_preds b !! k with
    | None => true
    | Some e => match y_ensemble e with None => true | Some _ => false end
    end in
  if missing then
    r ← Py.of_option KeyError (Dict.get (read_losses b) k);
    if negb (load_state_eqb (loaded r) Deleted) then
      arr ← Py.of_option OSError (read_np_fn w k);
      e ← Py.of_option KeyError (read_preds b !! k);
      let b := set_read_preds
                 (<[k := {| y_ensemble := Some arr; y_test := y_test e |}]> (read_preds b)) b in
      Ok (set_read_losses (Dict.alter (set_loaded InMemory) k (read_losses b)) b)
    else Ok b
  else Ok b.

(** A [for] loop whose body updates the builder and may raise. *)
Fixpoint for_each {A} (body : builder → A → result builder) (b : builder) (l : list A)
  : result builder :=
  match l with
  | [] => Ok b
  | x :: l' => b' ← body b x; for_each body b' l'
  end.

Definition get_n_best_preds (w : world) (b : builder) : result (builder * list string) :=
  let sorted_keys := _get_list_of_sorted_preds b in
  let '(dummy_loss, sorted_keys) := dummy_filter b sorted_keys in
  let keep_nbest := keep_nbest_of (ensemble_nbest b) (Z.of_nat (length sorted_keys)) in
  max_resident ← resident_bound b;
  let b := set_max_resident_models max_resident b in
  let keep_nbest := clamp_keep_nbest max_resident keep_nbest in
  ensemble_n_best ←
    performance_range_prune (performance_range_threshold b) dummy_loss sorted_keys keep_nbest;
  (* reduce to keys *)
  let reduced_sorted_keys := map pk_path sorted_keys in
  b ← for_each drop_pred b (Py.slice_from reduced_sorted_keys ensemble_n_best);
  b ← for_each (load_pred w) b (Py.slice_to reduced_sorted_keys ensemble_n_best);
  Ok (b, Py.slice_to reduced_sorted_keys ensemble_n_best).

(** ** [compute_loss_per_model] *)

(** An element of [to_read]: the file and the seed, num_run and budget
    parsed from its name. *)
Record run_file := {
  rf_path : string;
  rf_seed : Z;
  rf_num_run : Z;
  rf_budget : Q
}.

Definition is_npy (f : string) : bool :=
  Py.endswith f ".npy" || Py.endswith f ".npy.gz".

(** First sort files chronologically: every file name has to parse. *)
Fixpoint parse_files (files : list string) : result (list run_file) :=
  match files with
  | [] => Ok []
  | f :: files' =>
      '(s, n, bu) ← Py.of_option ValueError (parse_fn f);
      rest ← parse_files files';
      Ok ({| rf_path := f; rf_seed := s; rf_num_run := n; rf_budget := bu |} :: rest)
  end.

Definition fresh_record (f : run_file) : loss_record :=
  {| ens_loss := Inf; mtime_ens := 0; mtime_test := 0;
     rec_seed := rf_seed f; num_run := rf_num_run f; budget := rf_budget f;
     disc_space_cost_mb := None; loaded := NotLoaded |}.

(** What the loop body does with one file. *)
Inductive read_outcome :=
| NotNpy      (** skipped: wrong suffix *)
| Unchanged   (** skipped: same time stamp *)
| Failed      (** reading, scoring or measuring raised *)
| Scored.     (** read and scored: counts as a read file *)

(** The body of the loop over the files, after the test of the cap. *)
Definition read_one (w : world) (b : builder) (f : run_file) : builder * read_outcome :=
  let y_ens_fn := rf_path f in
  if negb (Py.endswith y_ens_fn ".npy") && negb (Py.endswith y_ens_fn ".npy.gz")
  then (b, NotNpy)
  else
    let b :=
      match Dict.get (read_losses b) y_ens_fn with
      | None => set_read_losses (Dict.set y_ens_fn (fresh_record f) (read_losses b)) b
      | Some _ => b
      end in
    let b :=
      match read_preds b !! y_ens_fn with
      | None =>
          set_read_preds
            (<[y_ens_fn := {| y_ensemble := None; y_test := None |}]> (read_preds b)) b
      | Some _ => b
      end in
    let upd g b := set_read_losses (Dict.alter g y_ens_fn (read_losses b)) b in
    match Dict.get (read_losses b) y_ens_fn with
    | None => (b, Failed) (* unreachable: the record was just created *)
    | Some r =>
        if Qeq_bool (mtime_ens r) (getmtime w y_ens_fn) then
          (* same time stamp; nothing changed; *)
          (b, Unchanged)
        else
          (* actually read the predictions and compute their respective loss *)
          match
            y_ensemble ← read_np_fn w y_ens_fn;
            calculate_loss w (default [] (y_true_ensemble b)) y_ensemble
          with
          | None => (upd (set_ens_loss Inf) b, Failed)
          | Some l =>
              let b := upd (set_ens_loss l) b in
              let b := upd (set_mtime_ens (getmtime w y_ens_fn)) b in
              let b := upd (set_loaded Dropped) b in
              match get_disk_consumption w y_ens_fn with
              | None => (upd (set_ens_loss Inf) b, Failed)
              | Some c => (upd (set_disc_space_cost_mb (Some c)) b, Scored)
              end
          end
    end.

(** The loop over the sorted files.  Returns the builder, the final
    [n_read_files], and the outcome of every file the loop reached. *)
Fixpoint read_files (w : world) (b : builder) (n_read_files : Z) (to_read : list run_file)
  : builder * Z * list (string * read_outcome) :=
  match to_read with
  | [] => (b, n_read_files, [])
  | f :: to_read' =>
      if negb (read_at_most b =? 0) && (n_read_files >=? read_at_most b) then
        (* limit the number of files that will be read *)
        (b, n_read_files, [])
      else
        let '(b, o) := read_one w b f in
        let n := match o with Scored => n_read_files + 1 | _ => n_read_files end in
        let '(b, n, log) := read_files w b n to_read' in
        (b, n, (rf_path f, o) :: log)
  end.

Definition compute_loss_per_model (w : world) (b : builder) : result (builder * bool) :=
  match
    match y_true_ensemble b with
    | Some _ => Some b
    | None =>
        match load_targets_ensemble w with
        | Some y => Some (set_y_true_ensemble (Some y) b)
        | None => None
        end
    end
  with
  | None => Ok (b, false)
  | Some b =>
      let y_ens_files := List.filter is_npy (glob_files w) in
      let b := set_y_ens_files y_ens_files b in
      (* no validation predictions so far -- no files *)
      if (length y_ens_files =? 0)%nat then Ok (b, false)
      else
        to_read ← parse_files y_ens_files;
        let to_read := Py.sorted (fun x y => rf_num_run x <? rf_num_run y) to_read in
        let '(b, _, _) := read_files w b 0 to_read in
        Ok (b, true)
  end.

(** ** [_delete_excess_models] *)

(** A deleted run directory: the prediction file it was deleted for and
    the seed, num_run and budget that name the directory. *)
Record deletion := {
  del_path : string;
  del_seed : Z;
  del_num_run : Z;
  del_budget : Q
}.

Definition mark_deleted (r : loss_record) : loss_record :=
  set_ens_loss Inf (set_loaded Deleted (set_disc_space_cost_mb None r)).

(** Loop through the files currently in the directory.  Returns the
    builder, the directories deleted so far, and the exception that ended
    the loop, if any. *)
Fixpoint delete_files (w : world) (candidates : list string) (b : builder)
    (files : list string) : builder * list deletion * option exn :=
  match files with
  | [] => (b, [], None)
  | pred_path :: files' =>
      (* Do not delete candidates *)
      if bool_decide (pred_path ∈ candidates) then delete_files w candidates b files'
      else if bool_decide (pred_path ∈ has_been_candidate b)
      then delete_files w candidates b files'
      else
        match parse_fn pred_path with
        | None => (b, [], Some ValueError)
        | Some (_seed, _num_run, _budget) =>
            (* Do not delete the dummy prediction *)
            if _num_run =? 1 then delete_files w candidates b files'
            else if remove_numrun_dir w _seed _num_run _budget then
              (* a missing record raises KeyError, which is caught and logged *)
              let b := set_read_losses (Dict.alter mark_deleted pred_path (read_losses b)) b in
              let '(b, log, e) := delete_files w candidates b files' in
              (b, {| del_path := pred_path; del_seed := _seed;
                     del_num_run := _num_run; del_budget := _budget |} :: log, e)
            else delete_files w candidates b files'
        end
  end.

(** [selected_keys] is not used by the body. *)
Definition _delete_excess_models (w : world) (b : builder) (selected_keys : list string)
  : builder * list deletion * option exn :=
  match max_resident_models b with
  | None => (b, [], None)
  | Some m =>
      (* Obtain a list of sorted pred keys *)
      let sorted_keys := map pk_path (_get_list_of_sorted_preds b) in
      if Z.of_nat (length sorted_keys) <=? m then (b, [], None)
      else
        let candidates := Py.slice_to sorted_keys m in
        delete_files w candidates b (y_ens_files b)
  end.

(** ** [fit_ensemble] *)

(** [zlib.adler32]: two sums modulo 65521 over the bytes, packed in 32 bits. *)
Definition MOD_ADLER : N := 65521.

Fixpoint adler32_from (a b : N) (data : list Byte.byte) : N :=
  match data with
  | [] => N.lor (N.shiftl b 16) a
  | x :: data' =>
      let a' := ((a + Byte.to_N x) mod MOD_ADLER)%N in
      let b' := ((b + a') mod MOD_ADLER)%N in
      adler32_from a' b' data'
  end.

Definition adler32 (data : list Byte.byte) : N := adler32_from 1 0 data.

(** The hash of the ensemble training data: the decimal checksums of the
    arrays, joined.  A slot that holds [None] has no [data]. *)
Definition hash_of (predictions_train : list (option ndarray)) : result string :=
  hs ← mapM (fun p => arr ← Py.of_option AttributeError p;
                      Ok (Py.str_of_N (adler32 arr))) predictions_train;
  Ok (foldr String.append EmptyString hs).

Definition loss_min (a b : loss) : loss := if loss_ltb b a then b else a.

(** [[self.read_preds[k][Y_ENSEMBLE] for k in selected_keys]] *)
Definition predictions_train_of (b : builder) (selected_keys : list string)
  : result (list (option ndarray)) :=
  mapM (fun k => e ← Py.of_option KeyError (read_preds b !! k);
                 Ok (y_ensemble e)) selected_keys.

(** The seed, num_run and budget of the selected keys. *)
Definition include_num_runs_of (b : builder) (selected_keys : list string)
  : result (list (Z * Z * Q)) :=
  mapM (fun k => r ← Py.of_option KeyError (Dict.get (read_losses b) k);
                 Ok (rec_seed r, num_run r, budget r)) selected_keys.

Definition fit_ensemble (w : world) (b : builder) (selected_keys : list string)
  : result (builder * option ensemble) :=
  if unit_test b then Raise MemoryError
  else
    predictions_train ← predictions_train_of b selected_keys;
    include_num_runs ← include_num_runs_of b selected_keys;
    (* check hash if ensemble training data changed *)
    current_hash ← hash_of predictions_train;
    if match last_hash b with
       | Some h => String.eqb h current_hash
       | None => false
       end
    then Ok (b, None)
    else
      let b := set_last_hash (Some current_hash) b in
      _ ← Py.of_option IndexError
            (List.find (fun m => String.eqb m (opt_metric b)) (metrics b));
      match ensemble_fit w (omap id predictions_train) (y_true_ensemble b) include_num_runs with
      | Fitted e =>
          Ok (set_validation_performance_
                (loss_min (validation_performance_ b) (validation_performance e)) b,
              Some e)
      | FitRaises ValueError => Ok (b, None)
      | FitRaises IndexError => Ok (b, None)
      | FitRaises e => Raise e
      end.

(** ** [run] *)

(** One snapshot of the ensemble history. *)
Definition performance_stamp := Dict.t Q.

(** The tuple returned by [main] and by [run]. *)
Record run_result := {
  res_history : list performance_stamp;
  res_nbest : number;
  res_train_pred : option ndarray;
  res_test_pred : option ndarray
}.

(** How the sandboxed call of [main] ended. *)
Inductive exit_status :=
| MemorylimitException
| Exited (r : run_result).

(** What one turn of the loop observes: the clock and the end of the
    sandboxed call. *)
Record tick := {
  now : Q;
  status : exit_status
}.

Definition empty_result (b : builder) : run_result :=
  {| res_history := []; res_nbest := ensemble_nbest b;
     res_train_pred := None; res_test_pred := None |}.

(** The reaction to a memory-limit exit: the new builder and, when the
    function returns at once, its result; [None] lets the loop go on. *)
Definition on_memory_limit (b : builder) : builder * option run_result :=
  match ensemble_nbest b with
  | PyInt n =>
      if n <=? 1 then
        if read_at_most b =? 1 then (set_ensemble_nbest (PyInt 0) b, None)
        else (set_read_at_most 1 b, None)
      else
        let b := set_ensemble_nbest (PyInt (Z.max 1 (int_of_Q (inject_Z n / 2)))) b in
        (b, Some (empty_result b))
  | PyFloat q =>
      let b := set_ensemble_nbest (PyInt (int_of_Q (q / 2))) b in
      (b, Some (empty_result b))
  end.

(** The [while True] loop, driven by the observations [ticks].  [None]:
    the observations ran out while the loop was still going. *)
Fixpoint run_loop (b : builder) (process_start_time : Q) (time_left end_at : option Q)
    (time_buffer : Z) (ticks : list tick) : option (builder * result run_result) :=
  match ticks with
  | [] => None
  | t :: ticks' =>
      let step (time_left : Q) :=
        let wall_time_in_s := int_of_Q (time_left - inject_Z time_buffer) in
        if wall_time_in_s <? 1 then Some (b, Ok (empty_result b))
        else
          match status t with
          | MemorylimitException =>
              match on_memory_limit b with
              | (b', Some r) => Some (b', Ok r)
              | (b', None) =>
                  run_loop b' process_start_time (Some time_left) end_at time_buffer ticks'
              end
          | Exited r => Some (b, Ok r)
          end in
      match time_left, end_at with
      | Some tl, _ => step (tl - (now t - process_start_time))%Q
      | None, Some e =>
          if Qltb e (now t) then Some (b, Ok (empty_result b))
          else step (e - now t)%Q
      | None, None => Some (b, Raise NotImplementedError)
      end
  end.

(** [run]: [start] is the clock at entry. *)
Definition run (b : builder) (start : Q) (time_left end_at : option Q) (time_buffer : Z)
    (ticks : list tick) : option (builder * result run_result) :=
  match time_left, end_at with
  | None, None => Some (b, Raise ValueError)
  | Some _, Some _ => Some (b, Raise ValueError)
  | _, _ => run_loop b start time_left end_at time_buffer ticks
  end.

(** * The vocabulary of the statements *)

(** [x] may stand before [y] in a list sorted by [lt]: [y] is not smaller
    than [x]. *)
Definition may_precede {A} (lt : A → A → bool) (x y : A) : Prop := lt y x = false.

(** The order [<=] on losses, with [Inf] on top. *)
Definition loss_le (a b : loss) : Prop :=
  match a, b with
  | Fin x, Fin y => (x <= y)%Q
  | _, Inf => True
  | Inf, Fin _ => False
  end.

Definition loss_lt (a b : loss) : Prop :=
  match a, b with
  | Fin x, Fin y => (x < y)%Q
  | Fin _, Inf => True
  | Inf, _ => False
  end.

Definition loss_eq (a b : loss) : Prop :=
  match a, b with
  | Fin x, Fin y => (x == y)%Q
  | Inf, Inf => True
  | _, _ => False
  end.

(** The attributes that decide the selection and the reclamation. *)
Definition same_ranking (b b' : builder) : Prop :=
  pred_keys_of (read_losses b') = pred_keys_of (read_losses b)
  ∧ max_resident_models b' = max_resident_models b.

(** What the constructor checks ([ensemble_nbest] may later be set to 0 by
    [run]), and that [max_resident_models] starts as [None] and is set by
    [get_n_best_preds] only. *)
Definition valid_config (b : builder) : Prop :=
  match ensemble_nbest b with
  | PyInt n => 0 ≤ n
  | PyFloat q => (0 <= q)%Q ∧ (q <= 1)%Q
  end
  ∧ match max_models_on_disc b with
    | None => max_resident_models b = None
    | Some (PyInt n) => 0 ≤ n
    | Some (PyFloat q) => (0 <= q)%Q
    end.

Definition no_run_zero (d : Dict.t loss_record) : Prop :=
  Forall (fun kv => 1 ≤ num_run kv.2) d.

(** No two of the files parse to the same seed, num_run and budget, that is,
    lie in the same run directory. *)
Definition one_file_per_run (files : list string) : Prop :=
  ∀ p q t, p ∈ files → q ∈ files → parse_fn p = Some t → parse_fn q = Some t → p = q.

(** Every cached record carries the seed, num_run and budget that its file
    name parses to: [compute_loss_per_model] creates it that way. *)
Definition cache_parsed (d : Dict.t loss_record) : Prop :=
  Forall (fun kv => parse_fn kv.1 = Some (rec_seed kv.2, num_run kv.2, budget kv.2)) d.



(** The count as the specification words it: [max(1, round(len * fraction))]
    with Python's [round], to the nearest integer and to the even one on a
    tie. *)
Definition py_round (q : Q) : Z :=
  let f := Qfloor q in
  let r := (q - inject_Z f)%Q in
  if Qltb r (1 # 2) then f
  else if Qltb (1 # 2) r then f + 1
  else if Z.even f then f else f + 1.

Definition keep_n_rounded (len : Z) (fraction : Q) : Z :=
  Z.max 1 (py_round (inject_Z len * fraction)).

Module Example.

Definition path_of_run (n : string) : string :=
  "/tmp/runs/1_" ++ n ++ "_0.0/predictions_ensemble_1_" ++ n ++ "_0.0.npy".

Definition p1 : string := path_of_run "1".
Definition p2 : string := path_of_run "2".
Definition p3 : string := path_of_run "3".
Definition p5 : string := path_of_run "5".
Definition p7 : string := path_of_run "7".

Definition some_array : ndarray := [Byte.x01; Byte.x02; Byte.x03].

(** A world in which every read succeeds, every file scores [loss_of_files],
    every model takes 4 MB and every directory can be removed. *)
Definition world_of (files : list string) (load : string → option ndarray)
    (loss_of_files : option loss) : world :=
  {| load_targets_ensemble := Some some_array;
     glob_files := files;
     getmtime := fun _ => 1%Q;
     read_np_fn := load;
     calculate_loss := fun _ _ => loss_of_files;
     get_disk_consumption := fun _ => Some 4%Q;
     remove_numrun_dir := fun _ _ _ => true;
     ensemble_fit := fun _ _ ids =>
       Fitted {| identifiers := ids; weights := map (fun _ => 1) ids;
                 validation_performance := Fin (1 # 10) |} |}.

Definition quiet_world : world :=
  world_of [p1; p2; p3] (fun _ => Some some_array) (Some (Fin (1 # 2))).

(** A scored record of seed 1. *)
Definition record (l : loss) (run : Z) (cost : option Q) : loss_record :=
  {| ens_loss := l; mtime_ens := 1; mtime_test := 0; rec_seed := 1;
     num_run := run; budget := 0; disc_space_cost_mb := cost; loaded := Dropped |}.

Definition empty_preds (d : Dict.t loss_record) : gmap string pred_entry :=
  list_to_map (map (fun k => (k, {| y_ensemble := None; y_test := None |})) (Dict.keys d)).

(** A builder of seed 1 with the given selection parameters and cache. *)
Definition builder_of (nbest : number) (disc : option number) (threshold : Q)
    (d : Dict.t loss_record) : builder :=
  {| seed := 1; ensemble_nbest := nbest; max_models_on_disc := disc;
     max_resident_models := None; performance_range_threshold := threshold;
     read_at_most := 5; unit_test := false; metrics := ["accuracy"%string];
     opt_metric := "accuracy"; last_hash := None;
     y_true_ensemble := Some some_array; y_ens_files := Dict.keys d;
     read_losses := d; read_preds := empty_preds d;
     has_been_candidate := ∅; validation_performance_ := Inf |}.

(** The builder after a call that returns normally. *)
Definition after {A} (r : result (builder * A)) (b : builder) : builder :=
  match r with Ok (b', _) => b' | Raise _ => b end.

(** The dummy and two better models; one model may stay on disk. *)
Definition cache_reclaim : Dict.t loss_record :=
  [(p1, record (Fin (9 # 10)) 1 (Some 4%Q));
   (p2, record (Fin (2 # 10)) 2 (Some 4%Q));
   (p3, record (Fin (4 # 10)) 3 (Some 4%Q))].

Definition builder_reclaim : builder :=
  builder_of (PyInt 2) (Some (PyInt 1)) 0 cache_reclaim.

(** Losses 0.5, 0.3, 0.3 of the runs 5, 2, 7. *)
Definition cache_tie : Dict.t loss_record :=
  [(p5, record (Fin (5 # 10)) 5 None);
   (p2, record (Fin (3 # 10)) 2 None);
   (p7, record (Fin (3 # 10)) 7 None)].

Definition builder_tie : builder := builder_of (PyInt 2) None 0 cache_tie.

(** Three models of 4 MB each under a budget of 10 MB. *)
Definition cache_budget : Dict.t loss_record :=
  [(p2, record (Fin (1 # 10)) 2 (Some 4%Q));
   (p3, record (Fin (2 # 10)) 3 (Some 4%Q));
   (p5, record (Fin (3 # 10)) 5 (Some 4%Q))].

Definition builder_budget : builder :=
  builder_of (PyInt 100) (Some (PyFloat 10)) 0 cache_budget.

(** No dummy, but a performance range. *)
Definition builder_no_dummy : builder :=
  builder_of (PyInt 2) None (1 # 2) cache_tie.

(** A cache with a run 0, which the source rules out. *)
Definition p0 : string := path_of_run "0".

Definition world_run_zero : world :=
  {| load_targets_ensemble := Some some_array;
     glob_files := [p0; p1; p2];
     getmtime := fun _ => 1%Q;
     read_np_fn := fun _ => Some some_array;
     calculate_loss := fun _ _ => Some (Fin (1 # 2));
     get_disk_consumption := fun _ => Some 4%Q;
     remove_numrun_dir := fun _ _ _ => true;
     ensemble_fit := fun _ _ _ => FitRaises ValueError |}.

Definition builder_run_zero : builder :=
  builder_of (PyInt 1) (Some (PyInt 1)) 0
    [(p0, record (Fin (1 # 10)) 0 (Some 4%Q));
     (p1, record (Fin (9 # 10)) 1 (Some 4%Q));
     (p2, record (Fin (2 # 10)) 2 (Some 4%Q))].





(** A builder at the floor of the degradation. *)
Definition builder_floor : builder :=
  set_read_at_most 1 (builder_of (PyInt 1) None 0 cache_tie).

Definition some_result : run_result :=
  {| res_history := []; res_nbest := PyInt 0;
     res_train_pred := None; res_test_pred := None |}.

End Example.

(** The keys of both caches only grow. *)
Definition keeps_keys (b b' : builder) : Prop :=
  (∀ k, is_Some (Dict.get (read_losses b) k) → is_Some (Dict.get (read_losses b') k))
  ∧ (∀ k, is_Some (read_preds b !! k) → is_Some (read_preds b' !! k)).

(** What [fit_ensemble] reads of the builder for the given keys: the
    prediction arrays, the presence of the loss records, the flags. *)
Definition same_fit_inputs (selected_keys : list string) (b b' : builder) : Prop :=
  unit_test b' = unit_test b
  ∧ Forall (fun k => y_ensemble <$> read_preds b' !! k = y_ensemble <$> read_preds b !! k
                     ∧ (is_Some (Dict.get (read_losses b) k) →
                        is_Some (Dict.get (read_losses b') k))) selected_keys.

Definition builder_loaded : builder :=
  Example.after (get_n_best_preds Example.quiet_world Example.builder_tie)
                Example.builder_tie.

Definition builder_fitted : builder :=
  Example.after (fit_ensemble Example.quiet_world builder_loaded [Example.p2; Example.p7])
                builder_loaded.






Definition keeps_identity (g : loss_record → loss_record) : Prop :=
  ∀ r, rec_seed (g r) = rec_seed r ∧ num_run (g r) = num_run r ∧ budget (g r) = budget r.

(** The file carries what its name parses to. *)
Definition file_parsed (f : run_file) : Prop :=
  parse_fn (rf_path f) = Some (rf_seed f, rf_num_run f, rf_budget f).

(** * Properties *)

(** ** Lists *)

Lemma filter_none {A} (P : A → bool) l :
  (∀ y, y ∈ l → P y = false) → List.filter P l = [].
Proof.
  induction l as [|x l IH]; simpl; [done|]. intros H.
  rewrite (H x); [|by left]. apply IH. intros y Hy. apply H. by right.
Qed.

Lemma filter_all {A} (P : A → bool) l :
  (∀ y, y ∈ l → P y = true) → List.filter P l = l.
Proof.
  induction l as [|x l IH]; simpl; [done|]. intros H.
  rewrite (H x); [|by left]. f_equal. apply IH. intros y Hy. apply H. by right.
Qed.

Lemma elem_of_filter_bool {A} (P : A → bool) l x :
  x ∈ List.filter P l ↔ x ∈ l ∧ P x = true.
Proof. rewrite !list_elem_of_In. apply filter_In. Qed.

(** ** The stable sort *)

Section Sorting.
Context {A : Type} (lt : A → A → bool).

Hypothesis lt_asym : ∀ x y, lt x y = true → lt y x = false.
Hypothesis may_precede_trans :
  ∀ x y z, may_precede lt x y → may_precede lt y z → may_precede lt x z.

Lemma insert_by_Permutation x l : insert_by lt x l ≡ₚ x :: l.
Proof.
  induction l as [|y l IH]; simpl; [done|].
  destruct (lt y x); [|done].
  rewrite IH. apply perm_swap.
Qed.

Lemma sorted_Permutation l : Py.sorted lt l ≡ₚ l.
Proof.
  unfold Py.sorted.
  induction l as [|x l IH]; simpl; [done|].
  rewrite insert_by_Permutation. by rewrite IH.
Qed.

Lemma insert_by_StronglySorted x l :
  StronglySorted (may_precede lt) l → StronglySorted (may_precede lt) (insert_by lt x l).
Proof.
  induction 1 as [|y l Hs IH Hy]; simpl.
  - repeat constructor.
  - destruct (lt y x) eqn:E.
    + constructor; [done|].
      rewrite Forall_forall. intros z Hz.
      rewrite insert_by_Permutation in Hz.
      apply elem_of_cons in Hz as [->|Hz].
      * by apply lt_asym.
      * rewrite Forall_forall in Hy. by apply Hy.
    + constructor; [by constructor|].
      constructor; [done|].
      eapply Forall_impl; [exact Hy|].
      intros z Hz. by eapply may_precede_trans.
Qed.

Lemma sorted_StronglySorted l : StronglySorted (may_precede lt) (Py.sorted lt l).
Proof.
  unfold Py.sorted.
  induction l as [|x l IH]; simpl; [constructor|].
  by apply insert_by_StronglySorted.
Qed.

(** In a sorted list, the elements that satisfy a downward-closed test
    are a prefix. *)
Lemma sorted_filter_prefix (P : A → bool) l :
  StronglySorted (may_precede lt) l →
  (∀ x y, may_precede lt x y → P y = true → P x = true) →
  List.filter P l = take (length (List.filter P l)) l.
Proof.
  intros Hs HP. induction Hs as [|x l Hs IH Hx]; simpl; [done|].
  destruct (P x) eqn:E; simpl; [by rewrite <- IH|].
  assert (List.filter P l = []) as ->; [|done].
  apply filter_none. intros y Hy.
  rewrite Forall_forall in Hx.
  destruct (P y) eqn:Ey; [|done].
  specialize (HP x y (Hx y Hy) Ey). congruence.
Qed.

(** The head of a filtered sorted list may precede every element that
    passes the filter. *)
Lemma sorted_filter_head (P : A → bool) l d rest :
  StronglySorted (may_precede lt) l →
  List.filter P l = d :: rest →
  ∀ y, y ∈ l → P y = true → y = d ∨ may_precede lt d y.
Proof.
  intros Hs. induction Hs as [|x l Hs IH Hx]; simpl; [done|].
  destruct (P x) eqn:E.
  - intros [= -> _] y [->|Hy]%elem_of_cons Py; [by left|right].
    rewrite Forall_forall in Hx. by apply Hx.
  - intros Hf y [->|Hy]%elem_of_cons Py; [congruence|]. by apply IH.
Qed.

(** A stable sort keeps the order of elements that the key cannot tell
    apart: a list that is already sorted is left as it is. *)
Lemma sorted_id l : StronglySorted (may_precede lt) l → Py.sorted lt l = l.
Proof.
  unfold Py.sorted.
  induction 1 as [|x l Hs IH Hx]; simpl; [done|].
  rewrite IH. destruct l as [|y l]; simpl; [done|].
  inversion Hx as [|? ? Hxy _]; subst. unfold may_precede in Hxy. by rewrite Hxy.
Qed.
End Sorting.

(** ** The order of losses *)

Lemma Qltb_spec (a b : Q) : Qltb a b = true ↔ (a < b)%Q.
Proof.
  unfold Qltb. rewrite Qlt_alt. destruct (a ?= b)%Q; split; congruence.
Qed.

Lemma Qltb_false (a b : Q) : Qltb a b = false ↔ (b <= a)%Q.
Proof.
  rewrite <- not_true_iff_false, Qltb_spec. split; [apply Qnot_lt_le | apply Qle_not_lt].
Qed.

Lemma loss_ltb_spec a b : loss_ltb a b = true ↔ loss_lt a b.
Proof. destruct a, b; simpl; try apply Qltb_spec; intuition congruence. Qed.

Lemma loss_ltb_false a b : loss_ltb a b = false ↔ loss_le b a.
Proof. destruct a, b; simpl; try apply Qltb_false; intuition congruence. Qed.

Lemma loss_eqb_spec a b : loss_eqb a b = true ↔ loss_eq a b.
Proof. destruct a, b; simpl; try apply Qeq_bool_iff; intuition congruence. Qed.

Lemma loss_le_lt_trans a b c : loss_le a b → loss_lt b c → loss_lt a c.
Proof. destruct a, b, c; simpl; try done. intros; lra. Qed.

Lemma loss_le_trans a b c : loss_le a b → loss_le b c → loss_le a c.
Proof. destruct a, b, c; simpl; try done. intros; lra. Qed.

Lemma loss_lt_not_le a b : loss_lt a b → ¬ loss_le b a.
Proof. destruct a, b; simpl; try tauto. intros; lra. Qed.

Lemma loss_le_antisym a b : loss_le a b → loss_le b a → loss_eq a b.
Proof. destruct a, b; simpl; try done. intros; lra. Qed.

Lemma loss_eq_le a b : loss_eq a b → loss_le a b ∧ loss_le b a.
Proof. destruct a, b; simpl; try done. intros; lra. Qed.

(** ** The sort of the cached records *)

(** [x] may stand before [y] in the sorted keys exactly when its loss is
    not larger and, at equal loss, its run is not larger. *)
Lemma pred_key_precede x y :
  may_precede pred_key_ltb x y ↔
  loss_le (pk_loss x) (pk_loss y)
  ∧ (loss_eq (pk_loss x) (pk_loss y) → pk_run x ≤ pk_run y).
Proof.
  unfold may_precede, pred_key_ltb.
  rewrite orb_false_iff, andb_false_iff, loss_ltb_false.
  rewrite <- not_true_iff_false, loss_eqb_spec, Z.ltb_ge.
  split.
  - intros [Hle [Hne|Hr]]; split; try done.
    intros He. destruct Hne. destruct (pk_loss x), (pk_loss y); simpl in *; try done; lra.
  - intros [Hle Hr]; split; [done|].
    destruct (loss_eqb (pk_loss y) (pk_loss x)) eqn:E.
    + right. apply Hr. apply loss_eqb_spec in E.
      destruct (pk_loss x), (pk_loss y); simpl in *; try done; lra.
    + left. rewrite <- loss_eqb_spec. congruence.
Qed.

Lemma pred_key_ltb_asym x y : pred_key_ltb x y = true → pred_key_ltb y x = false.
Proof.
  intros H. apply pred_key_precede.
  unfold pred_key_ltb in H.
  apply orb_true_iff in H as [H|H].
  - apply loss_ltb_spec in H. split.
    + destruct (pk_loss x), (pk_loss y); simpl in *; try done; lra.
    + intros He. destruct (pk_loss x), (pk_loss y); simpl in *; try done; lra.
  - apply andb_true_iff in H as [He Hr].
    apply loss_eqb_spec in He. apply Z.ltb_lt in Hr. split.
    + by apply loss_eq_le in He as [??].
    + lia.
Qed.

Lemma pred_key_precede_trans x y z :
  may_precede pred_key_ltb x y → may_precede pred_key_ltb y z →
  may_precede pred_key_ltb x z.
Proof.
  rewrite !pred_key_precede. intros [H1 H1'] [H2 H2']. split.
  - by eapply loss_le_trans.
  - intros He.
    assert (loss_eq (pk_loss x) (pk_loss y) ∧ loss_eq (pk_loss y) (pk_loss z)) as [??].
    { destruct (pk_loss x), (pk_loss y), (pk_loss z); simpl in *; try done; split; lra. }
    etrans; [by apply H1'|by apply H2'].
Qed.

Lemma sorted_preds_StronglySorted b :
  StronglySorted (may_precede pred_key_ltb) (_get_list_of_sorted_preds b).
Proof.
  apply sorted_StronglySorted;
    [apply pred_key_ltb_asym | apply pred_key_precede_trans].
Qed.

Lemma sorted_preds_Permutation b :
  _get_list_of_sorted_preds b ≡ₚ pred_keys_of (read_losses b).
Proof. apply sorted_Permutation. Qed.

(** ** What the side effects of [get_n_best_preds] leave alone *)

Lemma pred_keys_of_alter_loaded s k d :
  pred_keys_of (Dict.alter (set_loaded s) k d) = pred_keys_of d.
Proof.
  induction d as [|[k' v] d IH]; simpl; [done|].
  destruct (String.eqb k' k); simpl; [done|]. by rewrite IH.
Qed.

Lemma same_ranking_refl b : same_ranking b b.
Proof. by repeat split. Qed.

Lemma same_ranking_trans b1 b2 b3 :
  same_ranking b1 b2 → same_ranking b2 b3 → same_ranking b1 b3.
Proof.
  intros (?&?) (?&?). repeat split; by etrans.
Qed.

Lemma drop_pred_ranking b k b' : drop_pred b k = Ok b' → same_ranking b b'.
Proof.
  unfold drop_pred. intros H.
  destruct (read_preds b !! k); simpl in H;
    destruct (Dict.get (read_losses b) k) as [r|]; simpl in H; try done;
    destruct (load_state_eqb (loaded r) InMemory); injection H as <-;
    repeat split; simpl; by rewrite ?pred_keys_of_alter_loaded.
Qed.

Lemma load_pred_ranking w b k b' : load_pred w b k = Ok b' → same_ranking b b'.
Proof.
  unfold load_pred. intros H.
  destruct (match read_preds b !! k with
            | None => true
            | Some e => match y_ensemble e with None => true | Some _ => false end
            end).
  2: { injection H as <-. apply same_ranking_refl. }
  destruct (Dict.get (read_losses b) k) as [r|]; simpl in H; [|done].
  destruct (negb (load_state_eqb (loaded r) Deleted)).
  2: { injection H as <-. apply same_ranking_refl. }
  destruct (read_np_fn w k); simpl in H; [|done].
  destruct (read_preds b !! k); simpl in H; [|done].
  injection H as <-. repeat split; simpl. by rewrite pred_keys_of_alter_loaded.
Qed.

Lemma for_each_ranking {A} (body : builder → A → result builder) l :
  (∀ b x b', body b x = Ok b' → same_ranking b b') →
  ∀ b b', for_each body b l = Ok b' → same_ranking b b'.
Proof.
  intros Hbody. induction l as [|x l IH]; simpl; intros b b' H.
  - injection H as <-. apply same_ranking_refl.
  - destruct (body b x) as [b1|] eqn:E; simpl in H; [|done].
    eapply same_ranking_trans; [by eapply Hbody|by apply IH].
Qed.

(** The candidates that [get_n_best_preds] returns are a slice of the
    filtered sorted keys; the side effects keep the ranking. *)
Lemma get_n_best_preds_inv w b b' cands :
  get_n_best_preds w b = Ok (b', cands) →
  ∃ max_resident n,
    let sorted_keys := (dummy_filter b (_get_list_of_sorted_preds b)).2 in
    resident_bound b = Ok max_resident
    ∧ performance_range_prune (performance_range_threshold b)
        (dummy_filter b (_get_list_of_sorted_preds b)).1 sorted_keys
        (clamp_keep_nbest max_resident
           (keep_nbest_of (ensemble_nbest b) (Z.of_nat (length sorted_keys)))) = Ok n
    ∧ cands = Py.slice_to (map pk_path sorted_keys) n
    ∧ max_resident_models b' = max_resident
    ∧ pred_keys_of (read_losses b') = pred_keys_of (read_losses b).
Proof.
  unfold get_n_best_preds.
  destruct (dummy_filter b (_get_list_of_sorted_preds b)) as [dummy_loss sorted_keys].
  destruct (resident_bound b) as [mr|] eqn:Hmr; simpl; [|done].
  destruct (performance_range_prune _ _ _ _) as [n|] eqn:Hn; simpl; [|done].
  destruct (for_each drop_pred _ _) as [b1|] eqn:H1; simpl; [|done].
  destruct (for_each (load_pred w) _ _) as [b2|] eqn:H2; simpl; [|done].
  intros [= <- <-]. exists mr, n.
  apply (for_each_ranking _ _ drop_pred_ranking) in H1 as (?&?).
  apply (for_each_ranking _ _ (load_pred_ranking w)) in H2 as (?&?).
  simpl in *. repeat split; try done; congruence.
Qed.

(** ** Bounds on the number of kept models *)

Lemma keep_nbest_of_nonneg nb len :
  match nb with PyInt n => 0 ≤ n | PyFloat _ => True end →
  0 ≤ len → 0 ≤ keep_nbest_of nb len.
Proof. destruct nb; simpl; lia. Qed.

Lemma resident_bound_nonneg b m :
  valid_config b → resident_bound b = Ok (Some m) → 0 ≤ m.
Proof.
  intros [_ Hd]. unfold resident_bound.
  destruct (max_models_on_disc b) as [[n|q]|].
  - intros [= <-]. done.
  - destruct (Qmax_list _); simpl; [|done].
    destruct (Qltb _ _); intros [= <-]. lia.
  - rewrite Hd. done.
Qed.

Lemma clamp_keep_nbest_bounds mr k :
  0 ≤ k → (∀ m, mr = Some m → 0 ≤ m) →
  0 ≤ clamp_keep_nbest mr k ≤ k ∧ (∀ m, mr = Some m → clamp_keep_nbest mr k ≤ m).
Proof.
  intros Hk Hm. destruct mr as [m|]; simpl.
  - specialize (Hm m eq_refl). destruct (k >? m) eqn:E; split; try lia.
    all: intros ? [= <-]; lia.
  - split; [lia|done].
Qed.

Lemma prune_scan_bounds sk worst keep i n r :
  prune_scan sk worst keep i n = Ok r →
  0 ≤ i → r = keep ∨ (1 ≤ r ∧ r ≤ i + Z.of_nat n ∧ (1 ≤ n)%nat).
Proof.
  revert i. induction n as [|n IH]; simpl; intros i H Hi.
  - injection H as <-. by left.
  - destruct (Py.index sk i) as [x|]; simpl in H; [|done].
    destruct (xgeb _ _).
    + injection H as <-. right. lia.
    + apply IH in H as [->|H]; [by left|right; lia|lia].
Qed.

(** The performance-range step never enlarges the count, and never
    shrinks a positive count to zero. *)
Lemma performance_range_prune_bounds t d sk keep n :
  performance_range_prune t d sk keep = Ok n →
  0 ≤ keep → 0 ≤ n ≤ keep ∧ (1 ≤ keep → 1 ≤ n).
Proof.
  unfold performance_range_prune.
  destruct (Qltb 0 t); [|intros [= <-]; lia].
  destruct (Py.index sk 0); simpl; [|done].
  destruct (Py.of_option _ d); simpl; [|done].
  destruct (Py.index sk (keep - 1)); simpl; [|done].
  destruct (xgtb _ _); [|intros [= <-]; lia].
  intros H Hk. apply prune_scan_bounds in H; lia.
Qed.

Lemma length_slice_to {A} (l : list A) n : 0 ≤ n → Z.of_nat (length (Py.slice_to l n)) ≤ n.
Proof.
  intros Hn. unfold Py.slice_to, Py.slice_bound.
  destruct (n <? 0) eqn:E; [lia|]. rewrite length_take. lia.
Qed.

(** ** The filter on the dummy loss *)

Lemma elem_of_pred_keys_of x d :
  x ∈ pred_keys_of d ↔ ∃ kv, kv ∈ d ∧ x = (kv.1, ens_loss kv.2, num_run kv.2).
Proof.
  unfold pred_keys_of. rewrite list_elem_of_fmap.
  split; intros (kv & H1 & H2); by exists kv.
Qed.

Lemma elem_of_sorted_preds x b :
  x ∈ _get_list_of_sorted_preds b ↔ x ∈ pred_keys_of (read_losses b).
Proof. by rewrite sorted_preds_Permutation. Qed.

(** The sorted keys after the filter are a prefix of the sorted keys, or
    they are dummy records of the cache. *)
Lemma dummy_filter_cases b :
  no_run_zero (read_losses b) →
  let full := _get_list_of_sorted_preds b in
  let sk := (dummy_filter b full).2 in
  (∃ j, sk = take j full)
  ∨ Forall (fun x => pk_run x = 1 ∧ x ∈ pred_keys_of (read_losses b)) sk.
Proof.
  intros Hz full sk. subst sk. unfold dummy_filter.
  destruct (List.filter (fun x => pk_run x =? 1) full) as [|d rest] eqn:Hd; simpl.
  { left. exists (length full). by rewrite take_ge. }
  pose proof (sorted_preds_StronglySorted b) as Hs. fold full in Hs.
  set (F1 := List.filter (fun x => loss_ltb (pk_loss x) (pk_loss d)) full).
  assert (List.filter (fun x => pk_run x >? 1) F1 = F1) as ->.
  { apply filter_all. intros y [Hy Hlt]%elem_of_filter_bool.
    apply loss_ltb_spec in Hlt.
    assert (1 ≤ pk_run y) as H1.
    { apply elem_of_sorted_preds, elem_of_pred_keys_of in Hy as (kv & Hkv & ->).
      unfold no_run_zero in Hz. rewrite Forall_forall in Hz. by apply Hz. }
    assert (pk_run y ≠ 1); [|lia].
    intros Hr.
    destruct (sorted_filter_head _ _ _ _ _ Hs Hd y Hy) as [->|Hp].
    - by apply Z.eqb_eq.
    - destruct (pk_loss d); simpl in Hlt; [lra|done].
    - apply pred_key_precede in Hp as [Hle _].
      by apply loss_lt_not_le in Hlt. }
  destruct F1 as [|x F1'] eqn:HF1; simpl.
  - right. rewrite Forall_forall. intros x Hx. unfold pred_keys_of in Hx.
    apply list_elem_of_fmap in Hx as (kv & -> & Hkv).
    apply elem_of_filter_bool in Hkv as [Hkv Hb].
    apply andb_true_iff in Hb as [_ Hb%Z.eqb_eq].
    split; [done|]. apply elem_of_pred_keys_of. by exists kv.
  - left. exists (length (x :: F1')). rewrite <- HF1. subst F1.
    apply (sorted_filter_prefix pred_key_ltb); [done|].
    intros u v Hp Hv. apply pred_key_precede in Hp as [Hle _].
    apply loss_ltb_spec. apply loss_ltb_spec in Hv. by eapply loss_le_lt_trans.
Qed.

(** ** Reclamation *)

(** Every deleted directory belongs to one of the files, which is not one of
    the protected candidates and whose name does not parse to run 1. *)
Lemma delete_files_log w candidates files :
  ∀ b b' log e,
    delete_files w candidates b files = (b', log, e) →
    Forall (fun d =>
              (del_path d ∉ candidates)
              ∧ del_num_run d ≠ 1
              ∧ parse_fn (del_path d) = Some (del_seed d, del_num_run d, del_budget d)
              ∧ del_path d ∈ files)
           log.
Proof.
  induction files as [|p files IH]; simpl; intros b b' log e H.
  { injection H as <- <- <-. constructor. }
  assert (∀ b b' log e,
            delete_files w candidates b files = (b', log, e) →
            Forall (fun d =>
                      (del_path d ∉ candidates)
                      ∧ del_num_run d ≠ 1
                      ∧ parse_fn (del_path d)
                        = Some (del_seed d, del_num_run d, del_budget d)
                      ∧ del_path d ∈ p :: files) log) as IH'.
  { intros ???? H'. eapply Forall_impl; [by eapply IH|].
    simpl. intros d (?&?&?&?). repeat split; try done. by right. }
  case_bool_decide as Hc; [by eapply IH'|].
  case_bool_decide; [by eapply IH'|].
  destruct (parse_fn p) as [[[s n] bu]|] eqn:Hp.
  2: { injection H as <- <- <-. constructor. }
  destruct (n =? 1) eqn:Hn; [by eapply IH'|].
  destruct (remove_numrun_dir w s n bu); [|by eapply IH'].
  destruct (delete_files w candidates _ files) as [[b1 log1] e1] eqn:Hrec.
  injection H as <- <- <-. constructor; [|by eapply IH'].
  simpl. apply Z.eqb_neq in Hn. repeat split; try done. by left.
Qed.

Lemma sorted_preds_same_ranking b b' :
  same_ranking b b' → _get_list_of_sorted_preds b' = _get_list_of_sorted_preds b.
Proof. intros [H _]. unfold _get_list_of_sorted_preds. by rewrite H. Qed.

Lemma delete_excess_models_log w b sel :
  Forall (fun d =>
            (∀ m, max_resident_models b = Some m →
                  del_path d ∉ Py.slice_to (map pk_path (_get_list_of_sorted_preds b)) m)
            ∧ del_num_run d ≠ 1
            ∧ parse_fn (del_path d) = Some (del_seed d, del_num_run d, del_budget d)
            ∧ del_path d ∈ y_ens_files b)
         (_delete_excess_models w b sel).1.2.
Proof.
  unfold _delete_excess_models.
  destruct (max_resident_models b) as [m|]; simpl; [|constructor].
  destruct (_ <=? m); simpl; [constructor|].
  destruct (delete_files _ _ _ _) as [[b' log] e] eqn:H. simpl.
  apply delete_files_log in H.
  eapply Forall_impl; [exact H|]. simpl.
  intros d (?&?&?&?). split; [|done]. by intros ? [= <-].
Qed.

(** C1.  Whenever [max_resident_models] is set, the list of candidates that
    [get_n_best_preds] returns is at most that long; and a run of
    [_delete_excess_models] in the same iteration (on a builder with the
    same ranking, whatever its [selected_keys]) deletes neither a directory
    of run 1 nor the directory of a returned candidate: the candidates are
    within the first [max_resident_models] sorted keys, or they are the
    dummy records.  The builder is one the constructor accepts, the cached
    records carry the fields parsed from their file names, and no run has a
    number below 1.  When no two prediction files share a run directory, the
    deleted directories are not those of the candidates either. *)
Theorem reclaim_spares_baseline_and_candidates
    (w : world) (b b1 b2 : builder) (cands selected_keys : list string) :
  valid_config b →
  cache_parsed (read_losses b) →
  no_run_zero (read_losses b) →
  get_n_best_preds w b = Ok (b1, cands) →
  same_ranking b1 b2 →
  (∀ m, max_resident_models b1 = Some m → Z.of_nat (length cands) ≤ m)
  ∧ Forall (fun d =>
              del_num_run d ≠ 1
              ∧ (del_path d ∉ cands)
              ∧ (one_file_per_run (y_ens_files b2 ++ cands) →
                 ∀ c, c ∈ cands →
                      parse_fn c ≠ Some (del_seed d, del_num_run d, del_budget d)))
           (_delete_excess_models w b2 selected_keys).1.2.
Proof.
  intros Hv Hc Hz Hget Hsame.
  apply get_n_best_preds_inv in Hget as (mr & n & Hmr & Hn & -> & Hb1 & Hkeys).
  simpl in *.
  set (full := _get_list_of_sorted_preds b) in *.
  set (sk := (dummy_filter b full).2) in *.
  assert (∀ m, mr = Some m → 0 ≤ m) as Hm.
  { intros m ->. by eapply resident_bound_nonneg. }
  assert (0 ≤ keep_nbest_of (ensemble_nbest b) (Z.of_nat (length sk))) as Hk.
  { apply keep_nbest_of_nonneg; [|lia]. destruct Hv as [Hv _].
    by destruct (ensemble_nbest b). }
  destruct (clamp_keep_nbest_bounds mr _ Hk Hm) as [Hcl Hclm].
  apply performance_range_prune_bounds in Hn as [Hn _]; [|lia].
  split.
  { intros m Hmm. rewrite Hb1 in Hmm. specialize (Hclm m Hmm).
    etrans; [apply length_slice_to|]; lia. }
  assert (_get_list_of_sorted_preds b2 = full) as Hfull.
  { rewrite (sorted_preds_same_ranking _ _ Hsame).
    unfold full, _get_list_of_sorted_preds. by rewrite Hkeys. }
  destruct Hsame as [_ Hsm]. rewrite Hb1 in Hsm.
  destruct mr as [m|].
  2: { (* nothing is deleted when no bound is set *)
       unfold _delete_excess_models. rewrite Hsm. constructor. }
  specialize (Hm m eq_refl). specialize (Hclm m eq_refl).
  pose proof (delete_excess_models_log w b2 selected_keys) as Hlog.
  eapply Forall_impl; [exact Hlog|]. simpl.
  intros d (Hnot & Hrun & Hparse & Hfile). split; [done|].
  assert (del_path d ∉ Py.slice_to (map pk_path sk) n) as Hout; [|split; [done|]].
  2: { intros Hone c Hcand Hpc. apply Hout.
       assert (c = del_path d) as <-; [|done].
       eapply Hone; [| |exact Hpc|exact Hparse]; apply elem_of_app; auto. }
  intros Hin.
  unfold Py.slice_to, Py.slice_bound in Hin.
  destruct (n <? 0) eqn:En; [lia|].
  destruct (dummy_filter_cases b Hz) as [[j Hj]|Hd]; fold full in Hj || fold full in Hd.
  - (* the candidates are a prefix of the sorted keys *)
    fold sk in Hj.
    apply (Hnot m Hsm). rewrite Hfull.
    unfold Py.slice_to, Py.slice_bound.
    destruct (m <? 0) eqn:Em; [lia|].
    rewrite Hj, <- fmap_take, take_take in Hin.
    rewrite <- fmap_take.
    apply list_elem_of_fmap in Hin as (x & -> & Hx).
    apply list_elem_of_fmap. exists x. split; [done|].
    apply elem_of_take in Hx as (i & Hi & Hlt).
    apply elem_of_take. exists i. split; [done|lia].
  - (* the candidates are dummy records *)
    fold sk in Hd. rewrite Forall_forall in Hd.
    apply elem_of_take in Hin as (i & Hi & _).
    apply list_lookup_fmap_Some in Hi as (x & Hpath & Hx).
    apply list_elem_of_lookup_2 in Hx.
    destruct (Hd x Hx) as [Hr1 Hxc].
    apply elem_of_pred_keys_of in Hxc as (kv & Hkv & ->).
    unfold cache_parsed in Hc. rewrite Forall_forall in Hc.
    specialize (Hc kv Hkv). simpl in *. unfold pk_path, pk_run in *. simpl in *.
    rewrite Hpath, Hc in Hparse. injection Hparse as _ Hrun' _. congruence.
Qed.

(** ** The count from a fraction *)

Lemma int_of_Q_nonneg (q : Q) : (0 <= q)%Q → int_of_Q q = Qfloor q.
Proof.
  destruct q as [n d]. unfold Qle, int_of_Q, Qfloor. simpl. intros H.
  apply Z.quot_div_nonneg; lia.
Qed.

(** *** The rounding of floats *)

Lemma nearest_even_floor (q : Q) :
  nearest_even q = Qfloor q ∨ (nearest_even q = Qfloor q + 1 ∧ (inject_Z (Qfloor q) < q)%Q).
Proof.
  unfold nearest_even.
  destruct (Qltb (q - inject_Z (Qfloor q)) (1 # 2)) eqn:E1; [by left|].
  apply Qltb_false in E1.
  assert (inject_Z (Qfloor q) < q)%Q by lra.
  destruct (Qltb (1 # 2) _); [by right|].
  destruct (Z.even _); [by left|by right].
Qed.

Lemma nearest_even_ge (q : Q) (j : Z) : (inject_Z j <= q)%Q → j ≤ nearest_even q.
Proof.
  intros H. apply Qfloor_resp_le in H. rewrite Qfloor_Z in H.
  destruct (nearest_even_floor q) as [->|[-> _]]; lia.
Qed.

Lemma nearest_even_le (q : Q) (j : Z) : (q <= inject_Z j)%Q → nearest_even q ≤ j.
Proof.
  intros H. destruct (nearest_even_floor q) as [->|[-> Hlt]].
  - apply Qfloor_resp_le in H. by rewrite Qfloor_Z in H.
  - assert (inject_Z (Qfloor q) < inject_Z j)%Q as H' by lra.
    rewrite <- Zlt_Qlt in H'. lia.
Qed.

Lemma Qpow2_nonpos (e : Z) :
  e ≤ 0 → (Qpow2 e * inject_Z (2 ^ (- e)) == 1)%Q ∧ 0 < 2 ^ (- e).
Proof.
  intros He. assert (0 < 2 ^ (- e)) as Hp by (apply Z.pow_pos_nonneg; lia).
  split; [|done]. unfold Qpow2.
  destruct (0 <=? e) eqn:E.
  - apply Z.leb_le in E. assert (e = 0) as -> by lia. done.
  - unfold Qeq, Qmult. cbn [Qnum Qden inject_Z].
    rewrite Pos.mul_1_r, Z2Pos.id by done. lia.
Qed.

(** A positive value below [2^53] is rounded on a grid that holds the
    integers. *)
Lemma float_exponent_nonpos (a : Q) :
  (0 < a)%Q → (a < inject_Z (2 ^ 53))%Q →
  let l0 := Z.log2 (Qnum a) - Z.log2 (Zpos (Qden a)) in
  let l := if Qle_bool (Qpow2 l0) a then l0 else l0 - 1 in
  Z.max (l - 52) (-1074) ≤ 0.
Proof.
  intros H0 H53 l0 l.
  assert (l ≤ 52); [|lia].
  destruct a as [n d]. unfold Qlt, inject_Z in H0, H53. cbn [Qnum Qden] in H0, H53.
  assert (0 < n) as Hn by lia.
  assert (n < Z.pos d * 2 ^ 53) as Hnd by lia.
  assert (Z.log2 n ≤ 53 + Z.log2 (Z.pos d)) as Hlog.
  { etrans; [apply Z.log2_le_mono; apply Z.lt_le_incl; exact Hnd|].
    rewrite Z.log2_mul_pow2 by lia. lia. }
  subst l. destruct (Qle_bool _ _) eqn:E; [|subst l0; cbn [Qnum Qden]; lia].
  assert (l0 ≠ 53); [|subst l0; cbn [Qnum Qden] in *; lia]. intros E53. rewrite E53 in E.
  apply Qle_bool_iff in E. unfold Qpow2, Qle, inject_Z in E.
  change (0 <=? 53) with true in E. cbn [Qnum Qden] in E. lia.
Qed.

Lemma float_of_positive_bounds (a : Q) (k : Z) :
  (0 < a)%Q → (a < inject_Z (2 ^ 53))%Q →
  ((inject_Z k <= a)%Q → (inject_Z k <= float_of_positive a)%Q)
  ∧ ((a <= inject_Z k)%Q → (float_of_positive a <= inject_Z k)%Q).
Proof.
  intros H0 H53. unfold float_of_positive.
  pose proof (float_exponent_nonpos a H0 H53) as He. simpl in He.
  set (e := Z.max _ (-1074)) in *.
  destruct (Qpow2_nonpos e He) as [HP Hpos].
  set (P := 2 ^ (- e)) in *.
  assert (0 < inject_Z P)%Q as HPq.
  { change 0%Q with (inject_Z 0). by rewrite <- Zlt_Qlt. }
  assert (0 < Qpow2 e)%Q as Hq.
  { destruct (Qlt_le_dec 0 (Qpow2 e)) as [?|Hle]; [done|]. exfalso.
    assert (Qpow2 e * inject_Z P <= 0)%Q; [|lra].
    rewrite <- (Qmult_0_l (inject_Z P)). apply Qmult_le_compat_r; lra. }
  assert (a / Qpow2 e == a * inject_Z P)%Q as Hdiv.
  { apply Qmult_inj_r with (z := Qpow2 e); [lra|].
    rewrite Qmult_comm, Qmult_div_r by lra.
    rewrite <- Qmult_assoc, (Qmult_comm (inject_Z P)), HP. ring. }
  set (m := nearest_even (a / Qpow2 e)).
  assert (∀ j : Z, (inject_Z j == inject_Z (j * P) * Qpow2 e)%Q) as Hj.
  { intros j. rewrite inject_Z_mult, <- Qmult_assoc, (Qmult_comm (inject_Z P)), HP. ring. }
  split; intros Hk.
  - assert (k * P ≤ m) as Hm.
    { apply nearest_even_ge. rewrite Hdiv, inject_Z_mult.
      apply Qmult_le_compat_r; lra. }
    rewrite (Hj k). apply Qmult_le_compat_r; [|lra]. by rewrite <- Zle_Qle.
  - assert (m ≤ k * P) as Hm.
    { apply nearest_even_le. rewrite Hdiv, inject_Z_mult.
      apply Qmult_le_compat_r; lra. }
    rewrite (Hj k). apply Qmult_le_compat_r; [|lra]. by rewrite <- Zle_Qle.
Qed.

Lemma float_of_Q_bounds (x : Q) (k : Z) :
  (0 <= x)%Q → (x < inject_Z (2 ^ 53))%Q →
  ((inject_Z k <= x)%Q → (inject_Z k <= float_of_Q x)%Q)
  ∧ ((x <= inject_Z k)%Q → (float_of_Q x <= inject_Z k)%Q).
Proof.
  intros H0 H53. unfold float_of_Q.
  pose proof (Qred_correct x) as Hr.
  destruct (Qnum (Qred x)) as [|n|n] eqn:En.
  - assert (Qred x == 0)%Q as Hz by (unfold Qeq; rewrite En; done).
    rewrite Hz in Hr. split; intros; lra.
  - assert (0 < Qred x)%Q as Hp by (unfold Qlt; rewrite En; simpl; lia).
    destruct (float_of_positive_bounds (Qred x) k) as [A B]; [done|lra|].
    split; intros; [apply A|apply B]; lra.
  - exfalso. assert (Qred x < 0)%Q as Hn by (unfold Qlt; rewrite En; simpl; lia). lra.
Qed.

Lemma float_of_Q_compat (x y : Q) : (x == y)%Q → float_of_Q x = float_of_Q y.
Proof. intros H. unfold float_of_Q. by rewrite (Qred_complete _ _ H). Qed.

Lemma float_of_Q_integer (k : Z) :
  0 ≤ k < 2 ^ 53 → (float_of_Q (inject_Z k) == inject_Z k)%Q.
Proof.
  intros Hk.
  destruct (float_of_Q_bounds (inject_Z k) k) as [A B].
  - change 0%Q with (inject_Z 0). rewrite <- Zle_Qle. lia.
  - rewrite <- Zlt_Qlt. lia.
  - apply Qle_antisym; [apply B|apply A]; lra.
Qed.

Lemma float_of_fraction (q : Q) :
  (0 <= q)%Q → (q <= 1)%Q → (0 <= float_of_Q q)%Q ∧ (float_of_Q q <= 1)%Q.
Proof.
  intros H0 H1.
  assert (q < inject_Z (2 ^ 53))%Q as H53.
  { eapply Qle_lt_trans; [exact H1|]. done. }
  split.
  - by apply (float_of_Q_bounds q 0 H0 H53).
  - by apply (float_of_Q_bounds q 1 H0 H53).
Qed.

(** C3, the counterexample: with three candidates and the fraction 1/2 the
    code keeps one model ([int(1.5)] is 1), the rounded count is 2. *)
Lemma keep_nbest_fraction_not_rounded :
  ¬ (∀ (len : Z) (fraction : Q),
       1 ≤ len → (0 <= fraction)%Q → (fraction <= 1)%Q →
       keep_nbest_of (PyFloat fraction) len = keep_n_rounded len fraction).
Proof.
  intros H.
  assert (keep_nbest_of (PyFloat (1 # 2)) 3 = keep_n_rounded 3 (1 # 2)) as E.
  { apply H; [lia | done | done]. }
  vm_compute in E. discriminate E.
Qed.

(** C3, amended.  For a non-empty list of sorted keys and a fraction in
    [0,1], the count is [max(1, int(len * fraction))], where the product is
    the product of floats and [int] truncates it: the count is the integer
    part of the exact product of the length and the float of the fraction,
    or one more than that when the product of floats is rounded up to the
    next integer (10 keys and 0.7 give 7); it is the integer part whenever
    the product of floats is exact.  The product is never rounded to the
    nearest integer, and the cap by [len] never binds. *)
Theorem keep_nbest_fraction_floor (len : Z) (fraction : Q) :
  1 ≤ len < 2 ^ 53 → (0 <= fraction)%Q → (fraction <= 1)%Q →
  let product := (inject_Z len * float_of_Q fraction)%Q in
  let truncated := int_of_Q (float_of_Q product) in
  keep_nbest_of (PyFloat fraction) len = Z.max 1 truncated
  ∧ Qfloor product ≤ truncated ≤ Qfloor product + 1
  ∧ (truncated = Qfloor product + 1 →
     (float_of_Q product == inject_Z (Qfloor product + 1))%Q)
  ∧ ((float_of_Q product == product)%Q → truncated = Qfloor product).
Proof.
  intros Hlen H0 H1 product truncated.
  destruct (float_of_fraction fraction H0 H1) as [Hf0 Hf1].
  assert (0 < inject_Z len)%Q as Hl0.
  { change 0%Q with (inject_Z 0). rewrite <- Zlt_Qlt. lia. }
  assert (0 <= product)%Q as Hp0 by (apply Qmult_le_0_compat; lra).
  assert (product <= inject_Z len)%Q as Hpl.
  { unfold product. rewrite <- (Qmult_1_r (inject_Z len)) at 2.
    apply Qmult_le_l; done. }
  assert (product < inject_Z (2 ^ 53))%Q as Hp53.
  { eapply Qle_lt_trans; [exact Hpl|]. rewrite <- Zlt_Qlt. lia. }
  assert (0 <= float_of_Q product)%Q as Hfp0
    by (by apply (float_of_Q_bounds product 0 Hp0 Hp53)).
  assert (truncated = Qfloor (float_of_Q product)) as Ht
    by (by apply int_of_Q_nonneg).
  assert (Qfloor product ≤ truncated) as Hlo.
  { rewrite Ht, <- (Qfloor_Z (Qfloor product)). apply Qfloor_resp_le.
    apply (float_of_Q_bounds product _ Hp0 Hp53). apply Qfloor_le. }
  assert (float_of_Q product <= inject_Z (Qfloor product + 1))%Q as Hup.
  { apply (float_of_Q_bounds product _ Hp0 Hp53). apply Qlt_le_weak, Qlt_floor. }
  assert (truncated ≤ Qfloor product + 1) as Hhi.
  { rewrite Ht, <- (Qfloor_Z (Qfloor product + 1)). by apply Qfloor_resp_le. }
  assert (truncated ≤ len) as Htl.
  { rewrite Ht, <- (Qfloor_Z len). apply Qfloor_resp_le.
    by apply (float_of_Q_bounds product len Hp0 Hp53). }
  split; [|split; [done|split]].
  - unfold keep_nbest_of, float_mul.
    rewrite (float_of_Q_compat (float_of_Q (inject_Z len) * float_of_Q fraction) product).
    + fold truncated. lia.
    + unfold product. rewrite float_of_Q_integer by lia. reflexivity.
  - intros E. apply Qle_antisym; [done|]. rewrite <- E, Ht. apply Qfloor_le.
  - intros E. rewrite Ht. by rewrite E.
Qed.

Lemma keep_nbest_fraction_floor_witness :
  keep_nbest_of (PyFloat (1 # 2)) 3 = Z.max 1 (Qfloor (inject_Z 3 * (1 # 2)))
  ∧ keep_nbest_of (PyFloat (1 # 2)) 3 = 1.
Proof.
  destruct (keep_nbest_fraction_floor 3 (1 # 2)) as (H1 & _ & _ & H4);
    [split; [lia|reflexivity] | done | done |].
  split; [|reflexivity].
  rewrite H1, H4; [reflexivity|]. vm_compute. reflexivity.
Defined.

(** ** Performance range without a dummy record *)

Lemma dummy_filter_no_dummy b sorted_keys :
  Forall (fun x => pk_run x ≠ 1) sorted_keys →
  dummy_filter b sorted_keys = (None, sorted_keys).
Proof.
  intros H. unfold dummy_filter. rewrite filter_none; [done|].
  rewrite Forall_forall in H. intros y Hy. apply Z.eqb_neq. by apply H.
Qed.

(** C9.  With a positive [performance_range_threshold] and no cached record
    of run 1, [get_n_best_preds] raises: the local [dummy_loss] is bound
    only when a dummy record exists.  The exception is [UnboundLocalError],
    unless an earlier statement has raised already ([max] of an empty
    sequence in the disk budget, or the index 0 of an empty list of sorted
    keys). *)
Theorem get_n_best_preds_needs_dummy (w : world) (b : builder) :
  (0 < performance_range_threshold b)%Q →
  Forall (fun kv => num_run kv.2 ≠ 1) (read_losses b) →
  ∃ e, get_n_best_preds w b = Raise e
       ∧ (e = UnboundLocalError ∨ e = IndexError ∨ e = ValueError)
       ∧ (read_losses b ≠ [] → is_ok (resident_bound b) = true → e = UnboundLocalError).
Proof.
  intros Ht Hno. unfold get_n_best_preds.
  rewrite dummy_filter_no_dummy.
  2: { rewrite Forall_forall. intros x Hx.
       apply elem_of_sorted_preds, elem_of_pred_keys_of in Hx as (kv & Hkv & ->).
       rewrite Forall_forall in Hno. by apply Hno. }
  destruct (resident_bound b) as [mr|e] eqn:Hmr; simpl.
  2: { exists e. split; [done|]. split; [|done].
       unfold resident_bound in Hmr.
       destruct (max_models_on_disc b) as [[n|q]|]; try done.
       destruct (consumption_of _).*2; simpl in Hmr; [|by destruct (Qltb _ _)].
       injection Hmr as <-. auto. }
  unfold performance_range_prune.
  apply Qltb_spec in Ht. rewrite Ht.
  destruct (Py.index (_get_list_of_sorted_preds b) 0) as [best|e] eqn:Hbest; simpl.
  - exists UnboundLocalError. auto.
  - exists e. unfold Py.index in Hbest. simpl in Hbest.
    pose proof (sorted_preds_Permutation b) as Hperm.
    destruct (_get_list_of_sorted_preds b) as [|x l]; simpl in Hbest; [|done].
    injection Hbest as <-. split; [done|]. split; [auto|].
    intros Hne _. apply Permutation_nil in Hperm.
    destruct (read_losses b); [done|discriminate Hperm].
Qed.

(** ** Concrete caches and worlds *)

(** At a concrete cache: the candidate is run 2, the directory of run 3 is
    deleted, the dummy stays. *)
Lemma reclaim_spares_baseline_and_candidates_witness :
  let b := Example.builder_reclaim in
  let w := Example.quiet_world in
  let b1 := Example.after (get_n_best_preds w b) b in
  get_n_best_preds w b = Ok (b1, [Example.p2])
  ∧ map del_path (_delete_excess_models w b1 [Example.p2]).1.2 = [Example.p3]
  ∧ (∀ m, max_resident_models b1 = Some m → Z.of_nat (length [Example.p2]) ≤ m)
  ∧ Forall (fun d => del_num_run d ≠ 1 ∧ del_path d ∉ [Example.p2])
           (_delete_excess_models w b1 [Example.p2]).1.2.
Proof.
  intros b w b1.
  assert (get_n_best_preds w b = Ok (b1, [Example.p2])) as Hget.
  { vm_compute. reflexivity. }
  split; [exact Hget|]. split; [vm_compute; reflexivity|].
  destruct (reclaim_spares_baseline_and_candidates w b b1 b1 [Example.p2] [Example.p2])
    as [Hlen Hdel].
  - split; simpl; lia.
  - repeat constructor.
  - repeat constructor; simpl; lia.
  - exact Hget.
  - apply same_ranking_refl.
  - split; [exact Hlen|].
    eapply Forall_impl; [exact Hdel|]. simpl. intros d (H1 & H2 & _). by split.
Defined.

(** ** The disk budget in megabytes *)

Lemma consumption_costs_sorted (consumption : list (loss * Q)) (c : Q) :
  Forall (fun x => x.2 = c) consumption →
  (Py.sorted consumption_ltb consumption).*2 = replicate (length consumption) c.
Proof.
  intros H.
  assert (consumption.*2 = replicate (length consumption) c) as Hc.
  { induction H as [|x l Hx _ IH]; [done|]. by rewrite fmap_cons, IH, Hx. }
  symmetry. apply replicate_Permutation. rewrite <- Hc.
  apply fmap_Permutation. symmetry. apply sorted_Permutation.
Qed.

(** C5.  A float budget of 10.0 MB and three cached records of 4 MB each
    (whatever their losses, so in ascending order of loss too): the
    cumulative costs plus the largest cost once more are [8; 12; 16], the
    first position above 10 is 1, and [get_n_best_preds] sets
    [max_resident_models] to [max(1, 1) = 1]. *)
Theorem float_budget_of_three_models
    (b : builder) (k1 k2 k3 : string) (r1 r2 r3 : loss_record) :
  max_models_on_disc b = Some (PyFloat 10) →
  read_losses b = [(k1, r1); (k2, r2); (k3, r3)] →
  disc_space_cost_mb r1 = Some 4%Q →
  disc_space_cost_mb r2 = Some 4%Q →
  disc_space_cost_mb r3 = Some 4%Q →
  sorted_cum_consumption (consumption_of (read_losses b)) 4 = [8; 12; 16]%Q
  ∧ argmax (map (fun c => Qltb 10 c) [8; 12; 16]%Q) = 1
  ∧ resident_bound b = Ok (Some 1)
  ∧ ∀ w b' cands, get_n_best_preds w b = Ok (b', cands) →
                  max_resident_models b' = Some 1.
Proof.
  intros Hd Hl H1 H2 H3.
  assert (consumption_of (read_losses b)
          = [(ens_loss r1, 4%Q); (ens_loss r2, 4%Q); (ens_loss r3, 4%Q)]) as Hc.
  { rewrite Hl. unfold consumption_of. simpl. by rewrite H1, H2, H3. }
  assert (sorted_cum_consumption (consumption_of (read_losses b)) 4
          = [8; 12; 16]%Q) as Hcum.
  { unfold sorted_cum_consumption.
    rewrite (consumption_costs_sorted _ 4%Q), Hc; [done|].
    rewrite Hc. by repeat constructor. }
  assert (resident_bound b = Ok (Some 1)) as Hr.
  { unfold resident_bound. rewrite Hd. simpl.
    assert ((consumption_of (read_losses b)).*2 = [4; 4; 4]%Q) as -> by by rewrite Hc.
    simpl. change (Qltb 10 (Qsum [4; 4; 4]%Q + 4)) with true. simpl.
    change (foldl (λ m y : Q, if Qltb m y then y else m) 4%Q [4%Q; 4%Q]) with 4%Q.
    by rewrite Hcum. }
  repeat split; try done.
  intros w b' cands Hget.
  apply get_n_best_preds_inv in Hget as (mr & n & Hmr & _ & _ & Hb' & _).
  congruence.
Qed.

Lemma float_budget_of_three_models_witness :
  let b := Example.builder_budget in
  max_models_on_disc b = Some (PyFloat 10)
  ∧ get_n_best_preds Example.quiet_world b
    = Ok (Example.after (get_n_best_preds Example.quiet_world b) b, [Example.p2])
  ∧ resident_bound b = Ok (Some 1)
  ∧ max_resident_models (Example.after (get_n_best_preds Example.quiet_world b) b) = Some 1.
Proof.
  intros b. split; [reflexivity|]. split; [vm_compute; reflexivity|].
  destruct (float_budget_of_three_models b Example.p2 Example.p3 Example.p5
              (Example.record (Fin (1 # 10)) 2 (Some 4%Q))
              (Example.record (Fin (2 # 10)) 3 (Some 4%Q))
              (Example.record (Fin (3 # 10)) 5 (Some 4%Q))
              eq_refl eq_refl eq_refl eq_refl eq_refl) as (_ & _ & Hr & Hget).
  split; [exact Hr|].
  apply (Hget Example.quiet_world _ [Example.p2]). vm_compute. reflexivity.
Defined.

(** ** When the side effects of [get_n_best_preds] go through *)

Lemma dict_get_alter_is_Some {V} (f : V → V) k k' (d : Dict.t V) :
  is_Some (Dict.get (Dict.alter f k d) k') ↔ is_Some (Dict.get d k').
Proof.
  induction d as [|[k0 v] d IH]; simpl; [done|].
  destruct (String.eqb k0 k) eqn:E; simpl.
  - destruct (String.eqb k0 k'); [by split; eauto|done].
  - destruct (String.eqb k0 k'); [by split; eauto|done].
Qed.

Lemma keeps_keys_refl b : keeps_keys b b.
Proof. by split. Qed.

Lemma keeps_keys_trans b1 b2 b3 : keeps_keys b1 b2 → keeps_keys b2 b3 → keeps_keys b1 b3.
Proof. intros [H1 H2] [H3 H4]. split; intros k Hk; [apply H3, H1|apply H4, H2]; done. Qed.

Lemma drop_pred_ok b k :
  is_Some (Dict.get (read_losses b) k) →
  ∃ b', drop_pred b k = Ok b' ∧ keeps_keys b b'.
Proof.
  intros [r Hr]. unfold drop_pred.
  destruct (read_preds b !! k) as [e|] eqn:He; simpl; rewrite Hr; simpl.
  - destruct (load_state_eqb _ _); eexists; (split; [done|]); split; simpl; intros k' Hk';
      rewrite ?dict_get_alter_is_Some, ?lookup_insert_is_Some'; auto.
  - destruct (load_state_eqb _ _); eexists; (split; [done|]); split; simpl; intros k' Hk';
      rewrite ?dict_get_alter_is_Some; auto.
Qed.

Lemma load_pred_ok w b k :
  is_Some (Dict.get (read_losses b) k) →
  is_Some (read_preds b !! k) →
  is_Some (read_np_fn w k) →
  ∃ b', load_pred w b k = Ok b' ∧ keeps_keys b b'.
Proof.
  intros [r Hr] [e He] [arr Harr]. unfold load_pred. rewrite He, Hr. simpl.
  destruct (y_ensemble e); [eexists; split; [done|apply keeps_keys_refl]|].
  destruct (negb _); [|eexists; split; [done|apply keeps_keys_refl]].
  rewrite Harr. simpl.
  eexists; split; [done|]. split; simpl; intros k' Hk';
    rewrite ?dict_get_alter_is_Some, ?lookup_insert_is_Some'; auto.
Qed.

Lemma for_each_ok (P : builder → string → Prop) body l :
  (∀ b k, P b k → ∃ b', body b k = Ok b' ∧ keeps_keys b b') →
  (∀ b b' k, keeps_keys b b' → P b k → P b' k) →
  ∀ b, Forall (P b) l → ∃ b', for_each body b l = Ok b' ∧ keeps_keys b b'.
Proof.
  intros Hbody Hmono. induction l as [|k l IH]; simpl; intros b Hl.
  { eexists; split; [done|apply keeps_keys_refl]. }
  inversion Hl as [|? ? Hk Hl']; subst.
  destruct (Hbody b k Hk) as (b1 & -> & Hkeep). simpl.
  destruct (IH b1) as (b2 & -> & Hkeep2).
  { eapply Forall_impl; [exact Hl'|]. intros k'. by apply Hmono. }
  eexists; split; [done|]. by eapply keeps_keys_trans.
Qed.

Lemma dict_get_elem_of {V} (d : Dict.t V) kv : kv ∈ d → is_Some (Dict.get d kv.1).
Proof.
  induction d as [|[k v] d IH]; simpl; [by intros ?%elem_of_nil|].
  intros [->|H]%elem_of_cons; simpl.
  - by rewrite String.eqb_refl.
  - destruct (String.eqb k kv.1); [done|by apply IH].
Qed.

(** The sorted keys that pass the filter on the dummy loss are keys of the
    cache. *)
Lemma dummy_filter_subseteq b x :
  x ∈ (dummy_filter b (_get_list_of_sorted_preds b)).2 → x ∈ pred_keys_of (read_losses b).
Proof.
  unfold dummy_filter.
  destruct (List.filter (fun x => pk_run x =? 1) _) as [|d rest]; simpl.
  { apply elem_of_sorted_preds. }
  destruct (List.filter (fun x => pk_run x >? 1) _) as [|y l] eqn:E; simpl.
  - unfold pred_keys_of. rewrite !list_elem_of_fmap.
    intros (kv & -> & [Hkv _]%elem_of_filter_bool). by exists kv.
  - rewrite <- E. intros [[H _]%elem_of_filter_bool _]%elem_of_filter_bool.
    by apply elem_of_sorted_preds.
Qed.

(** [get_n_best_preds] returns the slice of the sorted keys as soon as the
    disk budget and the performance range compute a count and the kept
    models have an entry of predictions and a file that can be read. *)
Lemma get_n_best_preds_returns w b mr n :
  let sorted_keys := (dummy_filter b (_get_list_of_sorted_preds b)).2 in
  resident_bound b = Ok mr →
  performance_range_prune (performance_range_threshold b)
    (dummy_filter b (_get_list_of_sorted_preds b)).1 sorted_keys
    (clamp_keep_nbest mr
       (keep_nbest_of (ensemble_nbest b) (Z.of_nat (length sorted_keys)))) = Ok n →
  Forall (fun k => is_Some (read_preds b !! k) ∧ is_Some (read_np_fn w k))
         (Py.slice_to (map pk_path sorted_keys) n) →
  ∃ b', get_n_best_preds w b = Ok (b', Py.slice_to (map pk_path sorted_keys) n).
Proof.
  intros sk Hmr Hn Hall.
  assert (Forall (fun k => is_Some (Dict.get (read_losses b) k)) (map pk_path sk)) as Hkeys.
  { rewrite Forall_forall. intros k (x & -> & Hx)%list_elem_of_fmap.
    apply dummy_filter_subseteq, elem_of_pred_keys_of in Hx as (kv & Hkv & ->).
    by apply (dict_get_elem_of _ kv). }
  unfold get_n_best_preds.
  subst sk. destruct (dummy_filter b (_get_list_of_sorted_preds b)) as [dl sk].
  simpl in *. rewrite Hmr. simpl. rewrite Hn. simpl.
  set (b0 := set_max_resident_models mr b).
  destruct (for_each_ok (fun b k => is_Some (Dict.get (read_losses b) k)) drop_pred
              (Py.slice_from (map pk_path sk) n)) with (b := b0)
    as (b1 & -> & Hk1).
  - intros ??. apply drop_pred_ok.
  - intros ??? [H _]. apply H.
  - unfold Py.slice_from. by apply Forall_drop.
  - simpl.
    destruct (for_each_ok (fun b k => is_Some (Dict.get (read_losses b) k)
                                      ∧ is_Some (read_preds b !! k)
                                      ∧ is_Some (read_np_fn w k)) (load_pred w)
                (Py.slice_to (map pk_path sk) n)) with (b := b1)
      as (b2 & -> & Hk2).
    + intros ?? (?&?&?). by apply load_pred_ok.
    + intros ??? [H1 H2] (?&?&?). auto.
    + destruct Hk1 as [Hl Hp].
      assert (Forall (fun k => is_Some (Dict.get (read_losses b) k))
                     (Py.slice_to (map pk_path sk) n)) as Hkeys'.
      { unfold Py.slice_to. by apply Forall_take. }
      rewrite Forall_forall in Hall, Hkeys'. rewrite Forall_forall.
      intros k Hk. destruct (Hall k Hk). specialize (Hkeys' k Hk). auto.
    + simpl. by eexists.
Qed.

(** ** The tie on the loss *)

Lemma sorted_preds_spec b :
  _get_list_of_sorted_preds b ≡ₚ pred_keys_of (read_losses b)
  ∧ StronglySorted
      (fun x y => loss_le (pk_loss x) (pk_loss y)
                  ∧ (loss_eq (pk_loss x) (pk_loss y) → pk_run x ≤ pk_run y))
      (_get_list_of_sorted_preds b).
Proof.
  split; [apply sorted_preds_Permutation|].
  pose proof (sorted_preds_StronglySorted b) as H.
  induction H as [|x l Hs IH Hx]; constructor; [done|].
  eapply Forall_impl; [exact Hx|]. intros y Hy. by apply pred_key_precede.
Qed.

(** C7.  A cache of three records that are not dummies, with the losses
    0.5, 0.3, 0.3 and the runs 5, 2, 7 in this order, an integer
    [ensemble_nbest] of 2, no disk limit and no performance range, the kept
    models having an entry of predictions and a readable file:
    [get_n_best_preds] returns the path of run 2 and then the path of run 7.
    The sort is by loss and then by run, both ascending. *)
Theorem tie_broken_by_run
    (w : world) (b : builder) (k5 k2 k7 : string) (r5 r2 r7 : loss_record) :
  read_losses b = [(k5, r5); (k2, r2); (k7, r7)] →
  loss_eq (ens_loss r5) (Fin (5 # 10)) →
  loss_eq (ens_loss r2) (Fin (3 # 10)) →
  loss_eq (ens_loss r7) (Fin (3 # 10)) →
  num_run r5 = 5 → num_run r2 = 2 → num_run r7 = 7 →
  ensemble_nbest b = PyInt 2 →
  max_models_on_disc b = None → max_resident_models b = None →
  (performance_range_threshold b == 0)%Q →
  Forall (fun k => is_Some (read_preds b !! k) ∧ is_Some (read_np_fn w k)) [k2; k7] →
  _get_list_of_sorted_preds b
  = [(k2, ens_loss r2, 2); (k7, ens_loss r7, 7); (k5, ens_loss r5, 5)]
  ∧ (∃ b', get_n_best_preds w b = Ok (b', [k2; k7]))
  ∧ StronglySorted
      (fun x y => loss_le (pk_loss x) (pk_loss y)
                  ∧ (loss_eq (pk_loss x) (pk_loss y) → pk_run x ≤ pk_run y))
      (_get_list_of_sorted_preds b).
Proof.
  intros Hl H5 H2 H7 N5 N2 N7 Hnb Hdisc Hmr Ht Hall.
  assert (_get_list_of_sorted_preds b
          = [(k2, ens_loss r2, 2); (k7, ens_loss r7, 7); (k5, ens_loss r5, 5)]) as Hs.
  { unfold _get_list_of_sorted_preds. rewrite Hl. simpl. rewrite N5, N2, N7.
    unfold pred_key_ltb, pk_loss, pk_run. simpl.
    assert (loss_ltb (ens_loss r7) (ens_loss r2) = false) as ->.
    { apply loss_ltb_false.
      destruct (ens_loss r7), (ens_loss r2); simpl in *; try done; lra. }
    rewrite andb_false_r. simpl.
    assert (loss_ltb (ens_loss r2) (ens_loss r5) = true) as ->.
    { apply loss_ltb_spec.
      destruct (ens_loss r5), (ens_loss r2); simpl in *; try done; lra. }
    simpl.
    assert (loss_ltb (ens_loss r7) (ens_loss r5) = true) as ->.
    { apply loss_ltb_spec.
      destruct (ens_loss r5), (ens_loss r7); simpl in *; try done; lra. }
    done. }
  split; [done|]. split; [|apply sorted_preds_spec].
  assert (dummy_filter b (_get_list_of_sorted_preds b)
          = (None, _get_list_of_sorted_preds b)) as Hd.
  { rewrite Hs. by vm_compute. }
  assert (resident_bound b = Ok None) as Hr.
  { unfold resident_bound. by rewrite Hdisc, Hmr. }
  destruct (get_n_best_preds_returns w b None 2) as [b' Hb'].
  - exact Hr.
  - rewrite Hd, Hs, Hnb. simpl. unfold performance_range_prune.
    assert (Qltb 0 (performance_range_threshold b) = false) as ->; [|done].
    apply Qltb_false. lra.
  - by rewrite Hd, Hs.
  - exists b'. by rewrite Hd, Hs in Hb'.
Qed.

Lemma tie_broken_by_run_witness :
  let b := Example.builder_tie in
  let w := Example.quiet_world in
  read_losses b
  = [(Example.p5, Example.record (Fin (5 # 10)) 5 None);
     (Example.p2, Example.record (Fin (3 # 10)) 2 None);
     (Example.p7, Example.record (Fin (3 # 10)) 7 None)]
  ∧ get_n_best_preds w b
    = Ok (Example.after (get_n_best_preds w b) b, [Example.p2; Example.p7])
  ∧ ∃ b', get_n_best_preds w b = Ok (b', [Example.p2; Example.p7]).
Proof.
  intros b w. split; [reflexivity|]. split; [vm_compute; reflexivity|].
  refine (proj1 (proj2 (tie_broken_by_run w b Example.p5 Example.p2 Example.p7
            _ _ _ eq_refl _ _ _ eq_refl eq_refl eq_refl eq_refl eq_refl eq_refl _ _)));
    try (simpl; reflexivity).
  repeat constructor; vm_compute; eauto.
Defined.

Lemma get_n_best_preds_needs_dummy_witness :
  let b := Example.builder_no_dummy in
  let w := Example.quiet_world in
  (0 < performance_range_threshold b)%Q
  ∧ get_n_best_preds w b = Raise UnboundLocalError
  ∧ ∃ e, get_n_best_preds w b = Raise e
         ∧ (e = UnboundLocalError ∨ e = IndexError ∨ e = ValueError)
         ∧ (read_losses b ≠ [] → is_ok (resident_bound b) = true → e = UnboundLocalError).
Proof.
  intros b w. split; [reflexivity|]. split; [vm_compute; reflexivity|].
  apply (get_n_best_preds_needs_dummy w b); [reflexivity|].
  repeat constructor; simpl; lia.
Defined.

(** ** The filter on the dummy loss, as a specification *)




(** ** The performance range at threshold 0.5, dummy loss 2 and best loss 4 *)






(** Inside [get_n_best_preds] the scenario of a best loss above the dummy
    loss arises only after the fallback to the dummy records: when a dummy
    record exists and some record is better, every sorted key has a loss
    below the dummy loss. *)
Lemma sorted_keys_below_dummy b dummy x :
  (dummy_filter b (_get_list_of_sorted_preds b)).1 = Some dummy →
  x ∈ (dummy_filter b (_get_list_of_sorted_preds b)).2 →
  loss_lt (pk_loss x) (pk_loss dummy) ∨ pk_run x = 1.
Proof.
  unfold dummy_filter.
  destruct (List.filter (fun x => pk_run x =? 1) _) as [|d rest]; simpl; [done|].
  destruct (List.filter (fun x => pk_run x >? 1) _) as [|y l] eqn:E; simpl.
  - intros _ Hx. right. unfold pred_keys_of in Hx.
    apply list_elem_of_fmap in Hx as (kv & -> & [_ Hkv]%elem_of_filter_bool).
    by apply andb_true_iff in Hkv as [_ ?%Z.eqb_eq].
  - intros [= <-]. rewrite <- E.
    intros [[_ H]%elem_of_filter_bool _]%elem_of_filter_bool.
    left. by apply loss_ltb_spec.
Qed.

(** ** Refitting on unchanged predictions *)

Lemma same_fit_inputs_refl keys b : same_fit_inputs keys b b.
Proof. split; [done|]. rewrite Forall_forall. by intros. Qed.

Lemma mapM_result_ext {A B} (f g : A → result B) l :
  Forall (fun x => f x = g x) l → mapM f l = mapM g l.
Proof.
  induction 1 as [|x l Hx _ IH]; [done|].
  change (mapM f (x :: l)) with (y ← f x; k ← mapM f l; mret (y :: k)).
  change (mapM g (x :: l)) with (y ← g x; k ← mapM g l; mret (y :: k)).
  by rewrite Hx, IH.
Qed.

Lemma mapM_result_is_ok {A B C} (f : A → result B) (g : A → result C) l ys :
  mapM f l = Ok ys →
  Forall (fun x => Py.is_ok (f x) = true → Py.is_ok (g x) = true) l →
  ∃ zs, mapM g l = Ok zs.
Proof.
  revert ys. induction l as [|x l IH]; simpl; intros ys H Hall; [by eexists|].
  inversion Hall as [|? ? Hx Hl]; subst.
  destruct (f x) as [y|] eqn:E; simpl in H; [|done].
  destruct (mapM f l) as [ys'|] eqn:E'; simpl in H; [|done].
  destruct (g x) as [z|]; [|by specialize (Hx eq_refl)].
  destruct (IH ys' eq_refl Hl) as [zs ->]. simpl. by eexists.
Qed.

(** After a call that returns, [last_hash] is the hash of the arrays of the
    selected keys. *)
Lemma fit_ensemble_last_hash w b keys b1 r :
  fit_ensemble w b keys = Ok (b1, r) →
  unit_test b = false
  ∧ read_preds b1 = read_preds b ∧ read_losses b1 = read_losses b
  ∧ unit_test b1 = unit_test b
  ∧ ∃ preds ids h,
      predictions_train_of b keys = Ok preds
      ∧ include_num_runs_of b keys = Ok ids
      ∧ hash_of preds = Ok h
      ∧ last_hash b1 = Some h.
Proof.
  unfold fit_ensemble. destruct (unit_test b) eqn:Hu; [done|].
  destruct (predictions_train_of b keys) as [preds|] eqn:Hp; simpl; [|done].
  destruct (include_num_runs_of b keys) as [ids|] eqn:Hi; simpl; [|done].
  destruct (hash_of preds) as [h|] eqn:Hh; simpl; [|done].
  intros H. split; [done|].
  destruct (last_hash b) as [h0|] eqn:Hl.
  - destruct (String.eqb h0 h) eqn:E.
    + injection H as <- <-. apply String.eqb_eq in E as ->.
      repeat split; try done. by exists preds, ids, h.
    + simpl in H. destruct (List.find _ _); simpl in H; [|done].
      destruct (ensemble_fit _ _ _ _) as [e|[]]; try done;
        injection H as <- <-; repeat split; try done; by exists preds, ids, h.
  - simpl in H. destruct (List.find _ _); simpl in H; [|done].
    destruct (ensemble_fit _ _ _ _) as [e|[]]; try done;
      injection H as <- <-; repeat split; try done; by exists preds, ids, h.
Qed.

(** C8.  If [fit_ensemble] has returned for some selected keys, a second
    call with the same keys and the same cached prediction arrays (and the
    [last_hash] the first call left) returns [None] and leaves the builder,
    [last_hash] included, as it is: the checksums of the arrays are those of
    the first call, so nothing is fitted. *)
Theorem fit_ensemble_unchanged_is_noop
    (w w' : world) (b b1 b2 : builder) (selected_keys : list string)
    (r : option ensemble) :
  fit_ensemble w b selected_keys = Ok (b1, r) →
  same_fit_inputs selected_keys b1 b2 →
  last_hash b2 = last_hash b1 →
  fit_ensemble w' b2 selected_keys = Ok (b2, None)
  ∧ ∃ h, last_hash b2 = Some h.
Proof.
  intros H1 [Hu Hsame] Hlast.
  apply fit_ensemble_last_hash in H1
    as (Hu0 & Hpreds & Hlosses & Hu1 & preds & ids & h & Hp & Hi & Hh & Hl).
  unfold fit_ensemble. rewrite Hu, Hu1, Hu0.
  assert (predictions_train_of b2 selected_keys = Ok preds) as ->.
  { rewrite <- Hp. unfold predictions_train_of. rewrite <- Hpreds.
    apply mapM_result_ext.
    eapply Forall_impl; [exact Hsame|]. simpl. intros k [Hk _].
    destruct (read_preds b2 !! k), (read_preds b1 !! k); simpl in *; congruence. }
  simpl.
  unfold include_num_runs_of in *. rewrite <- Hlosses in Hi.
  destruct (mapM_result_is_ok _
              (fun k => r ← Py.of_option KeyError (Dict.get (read_losses b2) k);
                        Ok (rec_seed r, num_run r, budget r)) _ _ Hi) as [ids' ->].
  { eapply Forall_impl; [exact Hsame|]. simpl. intros k [_ Hk].
    destruct (Dict.get (read_losses b1) k); simpl; [|done].
    intros _. destruct Hk as [? ->]; [by eexists|done]. }
  simpl. rewrite Hh. simpl. rewrite Hlast, Hl, String.eqb_refl.
  split; [done|by exists h].
Qed.

Lemma fit_ensemble_unchanged_is_noop_witness :
  let w := Example.quiet_world in
  let keys := [Example.p2; Example.p7] in
  (∃ e, fit_ensemble w builder_loaded keys = Ok (builder_fitted, Some e))
  ∧ fit_ensemble w builder_fitted keys = Ok (builder_fitted, None)
  ∧ last_hash builder_fitted = Some "851975851975"%string.
Proof.
  intros w keys.
  assert (∃ e, fit_ensemble w builder_loaded keys = Ok (builder_fitted, Some e)) as H.
  { eexists. vm_compute. reflexivity. }
  split; [exact H|]. destruct H as (e & H).
  split; [|vm_compute; reflexivity].
  exact (proj1 (fit_ensemble_unchanged_is_noop w w builder_loaded builder_fitted
                  builder_fitted keys (Some e) H
                  (same_fit_inputs_refl keys builder_fitted) eq_refl)).
Defined.

(** ** The cap on the files read in one call *)











(** ** The reaction of [run] to a memory-limit exit *)

Lemma int_of_half (n : Z) : 0 ≤ n → int_of_Q (inject_Z n / 2) = n / 2.
Proof.
  intros Hn. unfold int_of_Q, Qdiv, Qmult, Qinv, inject_Z. simpl.
  rewrite Z.mul_1_r. apply Z.quot_div_nonneg; lia.
Qed.

(** An integer [ensemble_nbest] above 1 is halved (rounded down), and [run]
    returns at once with the new value. *)
Lemma memory_limit_halves_integer b n :
  ensemble_nbest b = PyInt n → 2 ≤ n →
  on_memory_limit b
  = (set_ensemble_nbest (PyInt (n / 2)) b,
     Some (empty_result (set_ensemble_nbest (PyInt (n / 2)) b))).
Proof.
  intros Hb Hn. unfold on_memory_limit. rewrite Hb.
  destruct (n <=? 1) eqn:E; [lia|].
  rewrite int_of_half by lia.
  assert (1 ≤ n / 2) by (apply Z.div_le_lower_bound; lia).
  by rewrite Z.max_r by lia.
Qed.

(** At the floor, [read_at_most] is set to 1 first, and then
    [ensemble_nbest] to 0; in both cases the loop goes on. *)
Lemma memory_limit_at_floor b n :
  ensemble_nbest b = PyInt n → n ≤ 1 →
  on_memory_limit b
  = if read_at_most b =? 1 then (set_ensemble_nbest (PyInt 0) b, None)
    else (set_read_at_most 1 b, None).
Proof.
  intros Hb Hn. unfold on_memory_limit. rewrite Hb.
  destruct (n <=? 1) eqn:E; [done|lia].
Qed.

(** The loop goes on after a memory-limit exit at the floor: it raises
    nothing and takes the next observation with the degraded builder. *)
Lemma run_loop_continues_at_floor b start tl end_at time_buffer t ticks n :
  ensemble_nbest b = PyInt n → n ≤ 1 →
  status t = MemorylimitException →
  let time_left := (tl - (now t - start))%Q in
  1 ≤ int_of_Q (time_left - inject_Z time_buffer) →
  run_loop b start (Some tl) end_at time_buffer (t :: ticks)
  = run_loop (on_memory_limit b).1 start (Some time_left) end_at time_buffer ticks.
Proof.
  intros Hb Hn Hs time_left Hw. simpl. fold time_left.
  destruct (_ <? 1) eqn:E; [lia|]. rewrite Hs.
  rewrite (memory_limit_at_floor b n Hb Hn). by destruct (read_at_most b =? 1).
Qed.

(** C2, at the failing input.  A fraction is not halved: with
    [ensemble_nbest = 0.5] the reaction to a memory-limit exit stores
    [int(0.5 / 2)], the integer 0, and so does it for every fraction of
    [0, 1]; the half, 0.25, is never stored. *)
Theorem memory_limit_fraction_not_halved :
  let b := Example.builder_of (PyFloat (1 # 2)) None 0 Example.cache_tie in
  ensemble_nbest (on_memory_limit b).1 = PyInt 0
  ∧ ensemble_nbest (on_memory_limit b).1 ≠ PyFloat ((1 # 2) / 2)
  ∧ ∀ (b : builder) (q : Q),
      ensemble_nbest b = PyFloat q → (0 <= q)%Q → (q <= 1)%Q →
      ensemble_nbest (on_memory_limit b).1 = PyInt 0.
Proof.
  split; [reflexivity|]. split; [discriminate|].
  intros b q Hb H0 H1. unfold on_memory_limit. rewrite Hb. simpl. f_equal.
  assert (0 <= q / 2)%Q as Hh0 by (apply Qle_shift_div_l; [reflexivity|lra]).
  assert (q / 2 < 1)%Q as Hh1 by (apply Qlt_shift_div_r; [reflexivity|lra]).
  rewrite int_of_Q_nonneg by done.
  assert (0 ≤ Qfloor (q / 2)).
  { change 0 with (Qfloor 0). by apply Qfloor_resp_le. }
  assert (Qfloor (q / 2) < 1); [|lia].
  rewrite Zlt_Qlt. eapply Qle_lt_trans; [apply Qfloor_le|done].
Qed.

(** ** The invariants that the reclamation relies on *)

Lemma cache_parsed_alter g k d :
  keeps_identity g → cache_parsed d → cache_parsed (Dict.alter g k d).
Proof.
  intros Hg. unfold cache_parsed.
  induction 1 as [|[k0 v] d Hkv Hd IH]; simpl; [constructor|].
  destruct (String.eqb k0 k); constructor; try done.
  simpl in *. destruct (Hg v) as (-> & -> & ->). done.
Qed.

Lemma cache_parsed_set k v d :
  parse_fn k = Some (rec_seed v, num_run v, budget v) →
  cache_parsed d → cache_parsed (Dict.set k v d).
Proof.
  intros Hk. unfold cache_parsed.
  induction 1 as [|[k0 v0] d Hkv Hd IH]; simpl; [by repeat constructor|].
  destruct (String.eqb k0 k) eqn:E; constructor; try done.
  apply String.eqb_eq in E as ->. done.
Qed.

Lemma read_one_cache_parsed w b f :
  file_parsed f →
  cache_parsed (read_losses b) → cache_parsed (read_losses (read_one w b f).1).
Proof.
  intros Hf Hc. unfold read_one.
  destruct (negb _ && negb _); [done|].
  set (b1 := match Dict.get (read_losses b) (rf_path f) with
             | Some _ => b
             | None => set_read_losses
                         (Dict.set (rf_path f) (fresh_record f) (read_losses b)) b
             end).
  assert (cache_parsed (read_losses b1)) as H1.
  { unfold b1. destruct (Dict.get _ _); [done|]. simpl. by apply cache_parsed_set. }
  set (b2 := match read_preds b1 !! rf_path f with
             | Some _ => b1
             | None => set_read_preds _ b1
             end).
  assert (cache_parsed (read_losses b2)) as H2.
  { unfold b2. by destruct (read_preds b1 !! _). }
  clearbody b2. clear b1 H1.
  destruct (Dict.get (read_losses b2) (rf_path f)) as [r|]; [|done].
  destruct (Qeq_bool _ _); [done|].
  destruct (read_np_fn w (rf_path f)); simpl.
  2: { by apply cache_parsed_alter. }
  destruct (calculate_loss w _ _); simpl.
  2: { by apply cache_parsed_alter. }
  destruct (get_disk_consumption w (rf_path f)); simpl;
    repeat (apply cache_parsed_alter; [done|]); done.
Qed.

Lemma read_files_cache_parsed w to_read :
  Forall (file_parsed) to_read →
  ∀ b n, cache_parsed (read_losses b) →
         cache_parsed (read_losses (read_files w b n to_read).1.1).
Proof.
  induction 1 as [|f to_read Hf _ IH]; simpl; intros b n Hc; [done|].
  destruct (negb _ && _); [done|].
  pose proof (read_one_cache_parsed w b f Hf Hc) as H1.
  destruct (read_one w b f) as [b1 o]. simpl in H1.
  specialize (IH b1 (match o with Scored => n + 1 | _ => n end) H1).
  by destruct (read_files w b1 _ to_read) as [[??]?].
Qed.

Lemma parse_files_parsed files to_read :
  parse_files files = Ok to_read → Forall (file_parsed) to_read.
Proof.
  revert to_read. induction files as [|f files IH]; simpl; intros to_read H.
  { injection H as <-. constructor. }
  destruct (parse_fn f) as [[[s n] bu]|] eqn:Hp; simpl in H; [|done].
  destruct (parse_files files) as [rest|]; simpl in H; [|done].
  injection H as <-. constructor; [done|by apply IH].
Qed.

(** [compute_loss_per_model] keeps the cached records in step with their
    file names. *)
Lemma compute_loss_per_model_cache_parsed w b b' r :
  cache_parsed (read_losses b) →
  compute_loss_per_model w b = Ok (b', r) →
  cache_parsed (read_losses b').
Proof.
  intros Hc. unfold compute_loss_per_model.
  set (b0 := match y_true_ensemble b with
             | Some _ => Some b
             | None => match load_targets_ensemble w with
                       | Some y => Some (set_y_true_ensemble (Some y) b)
                       | None => None
                       end
             end).
  assert (∀ b1, b0 = Some b1 → read_losses b1 = read_losses b) as Hb0.
  { unfold b0. intros b1.
    destruct (y_true_ensemble b); [by intros [= <-]|].
    destruct (load_targets_ensemble w); [by intros [= <-]|done]. }
  destruct b0 as [b1|]; [|by intros [= <- _]].
  specialize (Hb0 b1 eq_refl).
  destruct (length _ =? 0)%nat; [intros [= <- _]; simpl; by rewrite Hb0|].
  destruct (parse_files _) as [to_read|] eqn:Hp; simpl; [|done].
  apply parse_files_parsed in Hp.
  set (sorted_files := Py.sorted _ to_read).
  assert (Forall (file_parsed) sorted_files) as Hs.
  { unfold sorted_files. by rewrite sorted_Permutation. }
  pose proof (read_files_cache_parsed w sorted_files Hs
                (set_y_ens_files (List.filter is_npy (glob_files w)) b1) 0) as H.
  destruct (read_files w _ 0 sorted_files) as [[b2 n2] log].
  intros [= <- _]. apply H. simpl. by rewrite Hb0.
Qed.

(** Fitting leaves the ranking as it is. *)
Lemma fit_ensemble_ranking w b keys b' r :
  fit_ensemble w b keys = Ok (b', r) → same_ranking b b'.
Proof.
  intros H. pose proof H as H'.
  apply fit_ensemble_last_hash in H' as (_ & _ & Hl & _).
  split; [by rewrite Hl|].
  unfold fit_ensemble in H. destruct (unit_test b); [done|].
  destruct (predictions_train_of b keys); simpl in H; [|done].
  destruct (include_num_runs_of b keys); simpl in H; [|done].
  destruct (hash_of _); simpl in H; [|done].
  destruct (match last_hash b with Some _ => _ | None => _ end).
  { by injection H as <- _. }
  destruct (Py.of_option _ _); simpl in H; [|done].
  destruct (ensemble_fit _ _ _ _) as [e|[]]; try done; by injection H as <- _.
Qed.

(** ** Remarks *)

(** The checksum is the one of zlib: [adler32(b"Wikipedia")] is
    [0x11E60398]. *)
Remark adler32_Wikipedia : adler32 (list_byte_of_string "Wikipedia") = 300286872%N.
Proof. reflexivity. Qed.

(** The floats of the model are those of the machine: the float of 0.1, and
    two products whose rounding decides the truncated count. *)
Remark float_of_Q_examples :
  Qred (float_of_Q (1 # 10)) = 3602879701896397 # 36028797018963968
  ∧ Qred (float_mul 10 (7 # 10)) = 7%Q
  ∧ keep_nbest_of (PyFloat (7 # 10)) 10 = 7
  ∧ keep_nbest_of (PyFloat (29 # 100)) 100 = 28.
Proof. repeat split; vm_compute; reflexivity. Qed.

(** The pattern on file names: the leftmost match, a missing group, a group
    of the budget that has to give a dot back, and a compressed file. *)
Remark parse_fn_examples :
  parse_fn "/tmp/runs/1_2_0.0/predictions_ensemble_1_2_0.0.npy" = Some (1, 2, 0%Q)
  ∧ parse_fn "/tmp/runs/1_23_50.0/predictions_ensemble_1_23_50.0.npy.gz"
    = Some (1, 23, 50%Q)
  ∧ model_fn_re_search "p_1_2_5..npy" = Some ("1", "2", "5.")%string
  ∧ parse_fn "predictions_ensemble__2_5.25.npy" = None
  ∧ parse_fn "predictions_ensemble_1_2.npy" = None.
Proof. repeat split; reflexivity. Qed.

(** One run of the loop at the floor: the memory-limit exit sets
    [ensemble_nbest] to 0, nothing is raised, and the next turn returns what
    the sandboxed call returns. *)
Remark run_at_floor_keeps_running :
  run Example.builder_floor 0 (Some 100%Q) None 5
      [{| now := 1; status := MemorylimitException |};
       {| now := 2; status := Exited Example.some_result |}]
  = Some (set_ensemble_nbest (PyInt 0) Example.builder_floor, Ok Example.some_result).
Proof. reflexivity. Qed.

(** The hypothesis on the run numbers cannot be dropped: with a record of
    run 0 that is better than the dummy, the candidate of run 2 is returned
    and its directory is deleted.  The source excludes this cache (the dummy
    is run 1 and there is no run 0). *)
Remark run_zero_breaks_protection :
  let b := Example.builder_run_zero in
  let w := Example.world_run_zero in
  let b1 := Example.after (get_n_best_preds w b) b in
  get_n_best_preds w b = Ok (b1, [Example.p2])
  ∧ map del_path (_delete_excess_models w b1 [Example.p2]).1.2 = [Example.p2].
Proof. split; vm_compute; reflexivity. Qed.
